(** * vulture.config: configuration retrieval, shallowly embedded

    The module [vulture/config.py] builds the configuration of a run from the
    command line and from the [[tool.vulture]] table of a TOML file.  Its
    functions are embedded here over a small model of the Python values they
    handle:

    - Python values are the inductive [pyvalue]; [type_of] is Python's
      [type(v)], [truthy] is Python's truth test;
    - a [dict] is an association list in insertion order (Python dicts iterate
      in insertion order, and [_check_input_config] stops at the first bad
      item), read with first-match lookup;
    - a call either returns or raises: [result A];
    - [print] appends a line to the standard output carried along by
      [make_config];
    - [argparse], [tomllib], [pathlib], [pathspec] and [vulture.utils] are
      not part of the module: the namespace computed by [argparse], the
      document loaded by [tomllib], the file system and the two pattern
      translators are inputs of the model. *)

From Stdlib Require Import List String Ascii ZArith Bool Lia PeanoNat.
From Stdlib Require Import Permutation.
Import ListNotations.
Open Scope string_scope.

Set Implicit Arguments.

(** ** Python values *)

Inductive pytype : Type :=
| TInt | TBool | TStr | TList | TDict | TFloat | TNoneType
| TClass (name : string).

#[warnings="-register-all"]
Inductive pyvalue : Type :=
| PInt (z : Z)
| PBool (b : bool)
| PStr (s : string)
| PList (l : list pyvalue)
| PDict (d : list (string * pyvalue))
| PFloat (repr : string) (nonzero : bool)
| PNone
| PObj (cls : string) (repr : string).

Definition dict : Type := list (string * pyvalue).

(** [type(v)] *)
Definition type_of (v : pyvalue) : pytype :=
  match v with
  | PInt _ => TInt
  | PBool _ => TBool
  | PStr _ => TStr
  | PList _ => TList
  | PDict _ => TDict
  | PFloat _ _ => TFloat
  | PNone => TNoneType
  | PObj cls _ => TClass cls
  end.

(** [type(v).__name__] *)
Definition type_name (t : pytype) : string :=
  match t with
  | TInt => "int"
  | TBool => "bool"
  | TStr => "str"
  | TList => "list"
  | TDict => "dict"
  | TFloat => "float"
  | TNoneType => "NoneType"
  | TClass n => n
  end.

Definition pytype_eqb (a b : pytype) : bool :=
  match a, b with
  | TInt, TInt | TBool, TBool | TStr, TStr | TList, TList
  | TDict, TDict | TFloat, TFloat | TNoneType, TNoneType => true
  | TClass n, TClass m => String.eqb n m
  | _, _ => false
  end.

(** Python's truth value of an object, as tested by [if x] and [not x]. *)
Definition truthy (v : pyvalue) : bool :=
  match v with
  | PInt z => negb (Z.eqb z 0)
  | PBool b => b
  | PStr s => negb (String.eqb s EmptyString)
  | PList l => match l with [] => false | _ :: _ => true end
  | PDict d => match d with [] => false | _ :: _ => true end
  | PFloat _ nz => nz
  | PNone => false
  | PObj _ _ => true
  end.

(** ** Exceptions and results *)

Inductive exn : Type :=
| InputError (message : string)
| TypeError
| AttributeError
| ValueError
| KeyError (key : string)
| ExternalError (what : string).

Inductive result (A : Type) : Type :=
| Ok (a : A)
| Raise (e : exn).

Arguments Ok {A} a.
Arguments Raise {A} e.

Definition bind {A B : Type} (r : result A) (k : A -> result B) : result B :=
  match r with
  | Ok a => k a
  | Raise e => Raise e
  end.

Notation "x <- c ;; k" := (bind c (fun x => k))
  (at level 61, c at next level, right associativity).

(** ** Dictionaries *)

Fixpoint dict_get (k : string) (d : dict) : option pyvalue :=
  match d with
  | [] => None
  | (k', v) :: d' => if String.eqb k k' then Some v else dict_get k d'
  end.

(** [k in d] *)
Definition dict_mem (k : string) (d : dict) : bool :=
  match dict_get k d with Some _ => true | None => false end.

(** [d[k] = v]: an existing key keeps its place, a new key goes last. *)
Fixpoint dict_set (k : string) (v : pyvalue) (d : dict) : dict :=
  match d with
  | [] => [(k, v)]
  | (k', v') :: d' =>
      if String.eqb k k' then (k, v) :: d' else (k', v') :: dict_set k v d'
  end.

(** [d.update(other)] *)
Definition dict_update (d other : dict) : dict :=
  fold_left (fun acc kv => dict_set (fst kv) (snd kv) acc) other d.

(** [d.setdefault(k, v)], for its effect on [d]. *)
Definition dict_setdefault (k : string) (v : pyvalue) (d : dict) : dict :=
  if dict_mem k d then d else dict_set k v d.

(** [d[k]], raising [KeyError] on a missing key. *)
Definition dict_index (k : string) (d : dict) : result pyvalue :=
  match dict_get k d with
  | Some v => Ok v
  | None => Raise (KeyError k)
  end.

(** ** The options and their defaults *)

(** Possible configuration options and their respective defaults *)
Definition DEFAULTS : dict :=
  [ ("min_confidence", PInt 0);
    ("paths", PList []);
    ("exclude", PList []);
    ("ignore_decorators", PList []);
    ("ignore_names", PList []);
    ("make_whitelist", PBool false);
    ("sort_by_size", PBool false);
    ("verbose", PBool false) ].

(** The body of the loop of [_check_input_config] for one item. *)
Definition check_item (key : string) (value : pyvalue) : result unit :=
  match dict_get key DEFAULTS with
  | None => Raise (InputError ("Unknown configuration key: " ++ key))
  | Some dflt =>
      if negb (pytype_eqb (type_of value) (type_of dflt))
      then Raise (InputError ("Data type for " ++ key ++ " must be '"
                              ++ type_name (type_of dflt) ++ "'"))
      else Ok tt
  end.

(** Checks the types of the values in [data] against the expected types of
    config-values. If a value has the wrong type, raise an InputError. *)
Fixpoint _check_input_config (data : dict) : result unit :=
  match data with
  | [] => Ok tt
  | (key, value) :: rest =>
      _ <- check_item key value ;;
      _check_input_config rest
  end.

(** Run sanity checks on the generated config after all parsing and
    preprocessing is done. *)
Definition _check_output_config (config : dict) : result unit :=
  paths <- dict_index "paths" config ;;
  if negb (truthy paths)
  then Raise (InputError "Please pass at least one file or directory")
  else Ok tt.

(** ** Parsing the command line

    [argparse] computes a namespace from the argument strings; the module
    gives every argument the default [missing], a fresh object, so an
    attribute of the namespace is either that sentinel or a value.  The
    namespace, as the item list of [vars(namespace)], is the input here. *)

Inductive argvalue : Type :=
| missing
| given (v : pyvalue).

Definition namespace : Type := list (string * argvalue).

(** The attributes that the parser of [_parse_args] defines, in the order of
    their [add_argument] calls, with the values [argparse] can store there:
    [nargs="*"] and [type=csv] give lists of strings, [type=int] an int,
    [action="store_true"] the constant [True]; an argument that was not
    given keeps its default, [missing]. *)
Record cli : Type := {
  cli_paths : option (list string);
  cli_exclude : option (list string);
  cli_ignore_decorators : option (list string);
  cli_ignore_names : option (list string);
  cli_make_whitelist : bool;
  cli_min_confidence : option Z;
  cli_sort_by_size : bool;
  cli_verbose : bool
}.

Definition arg_list (o : option (list string)) : argvalue :=
  match o with
  | Some l => given (PList (map PStr l))
  | None => missing
  end.

Definition arg_flag (b : bool) : argvalue :=
  if b then given (PBool true) else missing.

Definition arg_int (o : option Z) : argvalue :=
  match o with
  | Some z => given (PInt z)
  | None => missing
  end.

(** [vars(namespace).items()] *)
Definition vars (c : cli) : namespace :=
  [ ("paths", arg_list (cli_paths c));
    ("exclude", arg_list (cli_exclude c));
    ("ignore_decorators", arg_list (cli_ignore_decorators c));
    ("ignore_names", arg_list (cli_ignore_names c));
    ("make_whitelist", arg_flag (cli_make_whitelist c));
    ("min_confidence", arg_int (cli_min_confidence c));
    ("sort_by_size", arg_flag (cli_sort_by_size c));
    ("verbose", arg_flag (cli_verbose c)) ].

(** The dict comprehension
    [{key: value for key, value in vars(namespace).items()
      if value is not missing}]. *)
Definition cli_args_of (ns : namespace) : dict :=
  fold_left
    (fun acc kv =>
       match snd kv with
       | given v => dict_set (fst kv) v acc
       | missing => acc
       end)
    ns [].

(** [_parse_args], from the namespace on.  When [argparse] stops the
    program itself ([--help], [--version], or arguments it cannot parse: it
    prints its own text and raises [SystemExit]), there is no namespace and
    the rest of the function does not run; the model, and [make_config]
    with it, starts where [parse_args] has returned a namespace. *)
Definition _parse_args (ns : namespace) : result dict :=
  let cli_args := cli_args_of ns in
  _ <- _check_input_config cli_args ;;
  Ok cli_args.

(** ** Parsing the TOML file *)

(** A file object handed to [tomllib.load]: what [str] shows of it and what
    loading it gives, the top-level table or an exception. *)
Record toml_file : Type := {
  toml_name : string;
  toml_load : result dict
}.

(** The receiver of [.get] and of [.items()] has to be a dict. *)
Definition as_dict (v : pyvalue) : result dict :=
  match v with
  | PDict d => Ok d
  | _ => Raise AttributeError
  end.

(** [d.get(k, {})] *)
Definition dict_get_or_empty (k : string) (d : dict) : pyvalue :=
  match dict_get k d with
  | Some v => v
  | None => PDict []
  end.

(** [data.get("tool", {}).get("vulture", {})] *)
Definition toml_settings (data : dict) : result pyvalue :=
  tool <- as_dict (dict_get_or_empty "tool" data) ;;
  Ok (dict_get_or_empty "vulture" tool).

(** Parse a TOML file for config values. *)
Definition _parse_toml (infile : toml_file) : result dict :=
  data <- toml_load infile ;;
  settings <- toml_settings data ;;
  items <- as_dict settings ;;
  _ <- _check_input_config items ;;
  Ok items.

(** ** Paths and the file system

    A resolved [pathlib.Path] is absolute and is kept as the list of its
    components below the root: [[]] is the root directory, ["a"; "b"] is
    [/a/b].  Its [parts] are then the root followed by the components. *)

Definition path : Type := list string.

(** [p.parts] *)
Definition parts (p : path) : list string := "/" :: p.

(** The proper prefixes of [p], shortest first. *)
Fixpoint ancestors (p : path) : list path :=
  match p with
  | [] => []
  | a :: q => [] :: map (cons a) (ancestors q)
  end.

(** [p.parents]: the logical ancestors of [p], closest first, root last. *)
Definition parents (p : path) : list path := rev (ancestors p).

(** [p / name] *)
Definition joinpath (p : path) (name : string) : path := (p ++ [name])%list.

(** [str(p)] *)
Definition path_str (p : path) : string :=
  match p with
  | [] => "/"
  | _ => String.concat EmptyString (map (fun c => "/" ++ c) p)
  end.

Fixpoint path_eqb (p q : path) : bool :=
  match p, q with
  | [], [] => true
  | a :: p', b :: q' => String.eqb a b && path_eqb p' q'
  | _, _ => false
  end.

(** The order of tuples of strings, as [max(..., key=lambda path: path.parts)]
    compares them: lexicographic, a proper prefix first. *)
Fixpoint tuple_compare (a b : list string) : comparison :=
  match a, b with
  | [], [] => Eq
  | [], _ :: _ => Lt
  | _ :: _, [] => Gt
  | x :: a', y :: b' =>
      match String.compare x y with
      | Eq => tuple_compare a' b'
      | c => c
      end
  end.

(** The world outside the module.  The root is a directory in every file
    system, so [is_dir] below answers for it without asking. *)
Record world : Type := {
  (** [Path.cwd().resolve()] *)
  cwd : path;
  (** [Path(s).resolve()] *)
  resolve : string -> path;
  (** [p.is_dir()] for a path below the root *)
  fs_is_dir : path -> bool;
  (** [p.is_file()] *)
  is_file : path -> bool;
  (** [tomllib.load] on the opened file at this path *)
  load_toml : path -> result dict;
  (** [pattern.regex], for the patterns of
      [PathSpec.from_lines("gitwildmatch", p.open())], in their order: the
      source of the compiled regex, or [None] for a line without pattern *)
  gitwildmatch : path -> list (option string);
  (** [vulture.utils.fnmatch_to_regex] *)
  fnmatch_to_regex : pyvalue -> result pyvalue
}.

Definition is_dir (w : world) (p : path) : bool :=
  match p with
  | [] => true
  | _ => fs_is_dir w p
  end.

(** A compiled regular expression, by its source; two of them are equal, and
    hash alike, when their sources are. *)
Definition PRegex (source : string) : pyvalue := PObj "Pattern" source.

(** The value of [pattern.regex]. *)
Definition regex_value (r : option string) : pyvalue :=
  match r with
  | Some source => PRegex source
  | None => PNone
  end.

Definition regex_eqb (a b : option string) : bool :=
  match a, b with
  | Some x, Some y => String.eqb x y
  | None, None => true
  | _, _ => false
  end.

(** ** Iteration *)

(** [for x in v]: the items a loop over [v] visits. *)
Definition py_iter (v : pyvalue) : result (list pyvalue) :=
  match v with
  | PList l => Ok l
  | PDict d => Ok (map (fun kv => PStr (fst kv)) d)
  | PStr s => Ok (map (fun c => PStr (String c EmptyString)) (list_ascii_of_string s))
  | _ => Raise TypeError
  end.

(** A list comprehension [[f(x) for x in l]] whose [f] may raise. *)
Fixpoint map_result {A B : Type} (f : A -> result B) (l : list A)
  : result (list B) :=
  match l with
  | [] => Ok []
  | x :: l' =>
      y <- f x ;;
      ys <- map_result f l' ;;
      Ok (y :: ys)
  end.

(** [Path(v).resolve()].  A path comes as a string or as a
    [pathlib.Path]; the [Path] constructor gives the same path for a [Path]
    and for the string it prints as, so the model holds both as that
    string, [PStr].  Numbers, [None], lists and dicts are not path-like,
    and the objects [PObj] of the model stand for values that are not
    paths (compiled patterns, dates). *)
Definition Path_resolve (w : world) (v : pyvalue) : result path :=
  match v with
  | PStr s => Ok (resolve w s)
  | _ => Raise TypeError
  end.

(** ** Finding the closest .gitignore *)

(** [set.intersection] of the given sets, with the sets kept as lists. *)
Definition intersection (sets : list (list path)) : result (list path) :=
  match sets with
  | [] => Raise TypeError
  | s :: rest =>
      Ok (filter (fun p => forallb (existsb (path_eqb p)) rest) s)
  end.

(** The loop of [max(items, key=lambda path: path.parts)]: a later item
    replaces the current one when its key is strictly greater. *)
Fixpoint max_from (best : path) (items : list path) : path :=
  match items with
  | [] => best
  | x :: rest =>
      match tuple_compare (parts x) (parts best) with
      | Gt => max_from x rest
      | _ => max_from best rest
      end
  end.

Definition max_by_parts (items : list path) : result path :=
  match items with
  | [] => Raise ValueError
  | x :: rest => Ok (max_from x rest)
  end.

(** The first directory of [dirs] that holds a file [.gitignore]. *)
Fixpoint first_gitignore (w : world) (dirs : list path) : option path :=
  match dirs with
  | [] => None
  | d :: rest =>
      let gitignore_path := joinpath d ".gitignore" in
      if is_file w gitignore_path then Some gitignore_path
      else first_gitignore w rest
  end.

(** The paths [find_gitignore] works on, resolved.  Without paths it is the
    current directory, which [resolve] leaves as it is; a single string or
    [Path], held as a string (see [Path_resolve]), stands for the list that
    holds it. *)
Definition resolved_paths (w : world) (paths : pyvalue) : result (list path) :=
  if negb (truthy paths) then Ok [cwd w]
  else
    match paths with
    | PStr s => Ok [resolve w s]
    | _ =>
        items <- py_iter paths ;;
        map_result (Path_resolve w) items
    end.

(** A list of lists of parents for each path; the path is included as a
    "parent" of itself if it is a directory. *)
Definition path_parents (w : world) (ps : list path) : list (list path) :=
  map (fun p => (parents p ++ (if is_dir w p then [p] else []))%list) ps.

(** [common_base] of [find_gitignore]. *)
Definition common_base (w : world) (ps : list path) : result path :=
  common <- intersection (path_parents w ps) ;;
  max_by_parts common.

(** Returns a Path to the closest parent .gitignore, or [None]. *)
Definition find_gitignore (w : world) (paths : pyvalue)
  : result (option path) :=
  ps <- resolved_paths w paths ;;
  base <- common_base w ps ;;
  Ok (first_gitignore w (base :: parents base)).

(** Pre-emptive deduplication: a set keeps one of equal elements.  The order
    in which [list] reads a set is not fixed by the language; the order
    chosen here is one of them, and the properties below do not rest on
    it. *)
Fixpoint dedup (l : list (option string)) : list (option string) :=
  match l with
  | [] => []
  | x :: l' => if existsb (regex_eqb x) l' then dedup l' else x :: dedup l'
  end.

(** Returns a list of compiled regexes from a .gitignore file. *)
Definition _parse_gitignore_excludes (w : world) (gitignore_path : path)
  : list pyvalue :=
  map regex_value (dedup (gitwildmatch w gitignore_path)).

(** ** Standard output

    [make_config] prints while it works; a computation takes the lines
    printed so far and gives them back, longer, with its result. *)

Definition io (A : Type) : Type := list string -> list string * result A.

Definition io_ret {A : Type} (a : A) : io A := fun out => (out, Ok a).

Definition io_bind {A B : Type} (m : io A) (k : A -> io B) : io B :=
  fun out =>
    match m out with
    | (out', Ok a) => k a out'
    | (out', Raise e) => (out', Raise e)
    end.

Definition lift {A : Type} (r : result A) : io A := fun out => (out, r).

Definition print (line : string) : io unit :=
  fun out => ((out ++ [line])%list, Ok tt).

Notation "x <~ c ;; k" := (io_bind c (fun x => k))
  (at level 61, c at next level, right associativity).

(** ** Building the configuration *)

(** The TOML part of [make_config]: the table of the given file, or of
    [pyproject.toml] in the current directory when there is one, with the
    path to report in verbose mode. *)
Definition load_config (w : world) (tomlfile : option toml_file)
  : result (string * dict) :=
  match tomlfile with
  | Some f =>
      config <- _parse_toml f ;;
      Ok (toml_name f, config)
  | None =>
      let toml_path := resolve w "pyproject.toml" in
      if is_file w toml_path then
        config <- _parse_toml {| toml_name := path_str toml_path;
                                 toml_load := load_toml w toml_path |} ;;
        Ok (path_str toml_path, config)
      else Ok (EmptyString, [])
  end.

(** [for key, value in DEFAULTS.items(): config.setdefault(key, value)] *)
Definition set_defaults (config : dict) : dict :=
  fold_left (fun acc kv => dict_setdefault (fst kv) (snd kv) acc)
            DEFAULTS config.

(** The configuration after the command line has overwritten the TOML
    options and the defaults have been set. *)
Definition merge_config (toml_config cli_config : dict) : dict :=
  set_defaults (dict_update toml_config cli_config).

(** Reports the TOML file in verbose mode. *)
Definition report_toml (detected_toml_path : string) (config : dict)
  : io unit :=
  if truthy (PStr detected_toml_path) then
    verbose <~ lift (dict_index "verbose" config) ;;
    if truthy verbose
    then print ("Reading configuration from " ++ detected_toml_path)
    else io_ret tt
  else io_ret tt.

(** Default to root gitignore as exclude patterns, but don't use it if
    exclude patterns are passed explicitly: those are translated from
    fnmatch patterns to regexes. *)
Definition resolve_exclude (w : world) (config : dict) : io dict :=
  exclude <~ lift (dict_index "exclude" config) ;;
  if negb (truthy exclude) then
    paths <~ lift (dict_index "paths" config) ;;
    gitignore_path <~ lift (find_gitignore w paths) ;;
    match gitignore_path with
    | Some g =>
        io_ret (dict_set "exclude" (PList (_parse_gitignore_excludes w g))
                         config)
    | None =>
        _ <~ print "Warning: No .gitignore found in the project tree." ;;
        io_ret config
    end
  else
    items <~ lift (py_iter exclude) ;;
    regexes <~ lift (map_result (fnmatch_to_regex w) items) ;;
    io_ret (dict_set "exclude" (PList regexes) config).

(** Returns a config object for vulture, merging both [pyproject.toml] and
    CLI arguments (CLI arguments have precedence). *)
Definition make_config (w : world) (ns : namespace)
           (tomlfile : option toml_file) : io dict :=
  cli_config <~ lift (_parse_args ns) ;;
  loaded <~ lift (load_config w tomlfile) ;;
  let detected_toml_path := fst loaded in
  let config := merge_config (snd loaded) cli_config in
  _ <~ report_toml detected_toml_path config ;;
  config <~ resolve_exclude w config ;;
  _ <~ lift (_check_output_config config) ;;
  io_ret config.

(** A run starts with nothing printed. *)
Definition run {A : Type} (m : io A) : list string * result A := m [].

(** ** Notions the properties are stated with *)

(** A key is recognized when it is one of [DEFAULTS]. *)
Definition recognized (k : string) : Prop := dict_mem k DEFAULTS = true.

(** The value has the type of the default of its key. *)
Definition well_typed (k : string) (v : pyvalue) : Prop :=
  exists dflt, dict_get k DEFAULTS = Some dflt /\ type_of v = type_of dflt.

Definition has_unknown_key (d : dict) : Prop :=
  exists k v, In (k, v) d /\ ~ recognized k.

Definition has_wrong_type (d : dict) : Prop :=
  exists k v dflt,
    In (k, v) d /\ dict_get k DEFAULTS = Some dflt /\ type_of v <> type_of dflt.

(** The value the last item of [d] with key [k] holds. *)
Fixpoint dict_get_last (k : string) (d : dict) : option pyvalue :=
  match d with
  | [] => None
  | (k', v) :: d' =>
      match dict_get_last k d' with
      | Some v' => Some v'
      | None => if String.eqb k k' then Some v else None
      end
  end.

(** The value the last item of the namespace with attribute [k] gives. *)
Fixpoint last_given (k : string) (ns : namespace) : option pyvalue :=
  match ns with
  | [] => None
  | (k', a) :: ns' =>
      match last_given k ns' with
      | Some v => Some v
      | None =>
          match a with
          | given v => if String.eqb k k' then Some v else None
          | missing => None
          end
      end
  end.

Definition keys (d : dict) : list string := map fst d.

(** The TOML file [make_config] reads: the one it is given, else
    [pyproject.toml] of the current directory when it is a file. *)
Definition toml_source (w : world) (tomlfile : option toml_file)
  : option toml_file :=
  match tomlfile with
  | Some f => Some f
  | None =>
      let toml_path := resolve w "pyproject.toml" in
      if is_file w toml_path
      then Some {| toml_name := path_str toml_path;
                   toml_load := load_toml w toml_path |}
      else None
  end.

(** The merged configuration: CLI over TOML over defaults. *)
Definition merged_of (w : world) (ns : namespace)
           (tomlfile : option toml_file) : result dict :=
  cli_config <- _parse_args ns ;;
  loaded <- load_config w tomlfile ;;
  Ok (merge_config (snd loaded) cli_config).

(** The options the specification lists. *)
Definition listed_options : list string :=
  [ "min_confidence"; "ignore_names"; "ignore_decorators"; "sort_by_size";
    "make_whitelist"; "verbose" ].

(** The validator accepts a key when some value passes the check under it. *)
Definition accepted (k : string) : Prop :=
  exists v, _check_input_config [(k, v)] = Ok tt.

(** The validator rejects a key as unknown when no value passes under it:
    the check raises the error for unknown keys. *)
Definition rejected_as_unknown (k : string) : Prop :=
  forall v,
    _check_input_config [(k, v)]
    = Raise (InputError ("Unknown configuration key: " ++ k)).

(** The TOML table [make_config] merges: the settings of the file it reads,
    or nothing. *)
Definition toml_config_of (w : world) (tomlfile : option toml_file)
  : result dict :=
  loaded <- load_config w tomlfile ;;
  Ok (snd loaded).

(** What is printed before the exclude patterns are resolved. *)
Definition toml_report (w : world) (tomlfile : option toml_file)
           (merged : dict) : list string :=
  match toml_source w tomlfile with
  | Some f =>
      if truthy (PStr (toml_name f)) then
        match dict_get "verbose" merged with
        | Some verbose =>
            if truthy verbose
            then ["Reading configuration from " ++ toml_name f]
            else []
        | None => []
        end
      else []
  | None => []
  end.

(** The end of [make_config]: the output check on the resolved config. *)
Definition checked (r : list string * result dict)
  : list string * result dict :=
  match r with
  | (out, Ok config) => (out, (_ <- _check_output_config config ;; Ok config))
  | (out, Raise e) => (out, Raise e)
  end.

Definition no_gitignore_warning : string :=
  "Warning: No .gitignore found in the project tree.".


(** Names the value of a closed term, computed. *)
Ltac computed t H :=
  let v := eval vm_compute in t in
  assert (H : t = v) by (vm_compute; reflexivity).

(** The config holds, for every key of [DEFAULTS], a value of the type of
    the default, and its [paths] list is not empty. *)
Definition fully_validated (cfg : dict) : bool :=
  forallb
    (fun kv =>
       match dict_get (fst kv) cfg with
       | Some v => pytype_eqb (type_of v) (type_of (snd kv))
       | None => false
       end)
    DEFAULTS
  && match dict_get "paths" cfg with
     | Some (PList (_ :: _)) => true
     | _ => false
     end.

(** The value [make_config] picks for an option before any processing:
    the CLI value when there is one, else the TOML value. *)
Definition picked (k : string) (ns : namespace) (toml_config : dict)
  : option pyvalue :=
  match last_given k ns with
  | Some v => Some v
  | None => dict_get k toml_config
  end.

(** Neither the command line nor the TOML table gives a value for [k]. *)
Definition unset (k : string) (ns : namespace) (toml_config : dict) : Prop :=
  (forall a, In (k, a) ns -> a = missing) /\ dict_get k toml_config = None.

(** [d] is [e] or one of its ancestors. *)
Definition is_prefix (d e : path) : Prop := exists s, e = (d ++ s)%list.

(** [d] is an ancestor of [p]. *)
Definition is_ancestor (d p : path) : Prop :=
  exists a s, p = (d ++ a :: s)%list.

(** [d] is among the "parents" of [p]: an ancestor, or [p] itself when it
    is a directory. *)
Definition covers (w : world) (d p : path) : Prop :=
  is_ancestor d p \/ (d = p /\ is_dir w p = true).

(** [b] is the deepest directory among the "parents" of all of [ps]. *)
Definition deepest_common (w : world) (ps : list path) (b : path) : Prop :=
  (forall p, In p ps -> covers w b p)
  /\ (forall d, (forall p, In p ps -> covers w d p) -> is_prefix d b).

(** [d] is the closest directory at or above [b] that holds a file
    [.gitignore]. *)
Definition closest_gitignore (w : world) (b d : path) : Prop :=
  is_prefix d b
  /\ is_file w (joinpath d ".gitignore") = true
  /\ (forall d', is_prefix d' b -> List.length d < List.length d' ->
                 is_file w (joinpath d' ".gitignore") = false).

(** No directory at or above [b] holds a file [.gitignore]. *)
Definition no_gitignore_above (w : world) (b : path) : Prop :=
  forall d, is_prefix d b -> is_file w (joinpath d ".gitignore") = false.

(** The returned [exclude] comes from the closest [.gitignore] at or above
    the common base of the given paths, or stays empty, with a warning,
    when there is none. *)
Definition from_gitignore (w : world) (tomlfile : option toml_file)
           (merged : dict) (paths : pyvalue) (out : list string)
           (cfg : dict) : Prop :=
  exists l ps b,
    paths = PList (map PStr l)
    /\ ps = map (resolve w) l
    /\ common_base w ps = Ok b
    /\ deepest_common w ps b
    /\ ((exists d regexes,
           closest_gitignore w b d
           /\ find_gitignore w paths = Ok (Some (joinpath d ".gitignore"))
           /\ dict_get "exclude" cfg = Some (PList (map regex_value regexes))
           /\ NoDup regexes
           /\ (forall x, In x regexes
                         <-> In x (gitwildmatch w (joinpath d ".gitignore")))
           /\ out = toml_report w tomlfile merged)
        \/ (no_gitignore_above w b
            /\ find_gitignore w paths = Ok None
            /\ dict_get "exclude" cfg = Some (PList [])
            /\ out = (toml_report w tomlfile merged
                      ++ [no_gitignore_warning])%list)).

(** The returned [exclude] is the translation of the given patterns, and
    resolving them gives the same in every world with that translation,
    whatever its file system. *)
Definition from_patterns (w : world) (tomlfile : option toml_file)
           (merged : dict) (exclude : pyvalue) (out : list string)
           (cfg : dict) : Prop :=
  (exists l regexes,
     exclude = PList l
     /\ map_result (fnmatch_to_regex w) l = Ok regexes
     /\ dict_get "exclude" cfg = Some (PList regexes)
     /\ out = toml_report w tomlfile merged)
  /\ (forall w' o,
        fnmatch_to_regex w' = fnmatch_to_regex w ->
        resolve_exclude w' merged o = resolve_exclude w merged o).

(** ** A small world to run the functions in

    The tree of the tests of [find_gitignore]: a project root holding
    [.gitignore], [test/] and [src/], the latter with a [.gitignore] of its
    own and [foo.py]. *)

Definition root_dir : path := ["tmp"; "root"].

Definition test_dirs : list path :=
  [ ["tmp"]; root_dir; (root_dir ++ ["test"])%list; (root_dir ++ ["src"])%list ].

Definition test_files : list path :=
  [ (root_dir ++ [".gitignore"])%list;
    (root_dir ++ ["src"; ".gitignore"])%list;
    (root_dir ++ ["src"; "foo.py"])%list ].

(** Splits a string at slashes. *)
Fixpoint split_slash (acc : string) (s : string) : list string :=
  match s with
  | EmptyString => [acc]
  | String c s' =>
      if Ascii.eqb c "/"%char then acc :: split_slash EmptyString s'
      else split_slash (acc ++ String c EmptyString) s'
  end.

(** Resolves a relative path with plain names against the project root,
    and an absolute one against the root. *)
Definition test_resolve (s : string) : path :=
  match s with
  | String c s' =>
      if Ascii.eqb c "/"%char then split_slash EmptyString s'
      else (root_dir ++ split_slash EmptyString s)%list
  | EmptyString => root_dir
  end.

(** The pattern has one of the wildcard characters. *)
Definition has_wildcard (s : string) : bool :=
  existsb (fun c => existsb (Ascii.eqb c) ["*"; "?"; "["]%char)
          (list_ascii_of_string s).

(** A translation for the runs below: a pattern without wildcards goes
    between stars, and the regex is written as the pattern it comes from;
    only a string is a pattern. *)
Definition test_fnmatch (v : pyvalue) : result pyvalue :=
  match v with
  | PStr s => Ok (PRegex (if has_wildcard s then s else "*" ++ s ++ "*"))
  | _ => Raise TypeError
  end.

Definition test_world : world :=
  {| cwd := root_dir;
     resolve := test_resolve;
     fs_is_dir := fun p => existsb (path_eqb p) test_dirs;
     is_file := fun p => existsb (path_eqb p) test_files;
     load_toml := fun _ => Raise (ExternalError "FileNotFoundError");
     gitwildmatch := fun p =>
       if path_eqb p (root_dir ++ [".gitignore"])%list
       then [Some "asdf"; None; Some "build"; Some "asdf"] else [];
     fnmatch_to_regex := test_fnmatch |}.

(** The same tree without any [.gitignore]. *)
Definition bare_world : world :=
  {| cwd := root_dir;
     resolve := test_resolve;
     fs_is_dir := fun p => existsb (path_eqb p) test_dirs;
     is_file := fun _ => false;
     load_toml := fun _ => Raise (ExternalError "FileNotFoundError");
     gitwildmatch := fun _ => [];
     fnmatch_to_regex := test_fnmatch |}.

Definition no_args : cli :=
  {| cli_paths := None; cli_exclude := None; cli_ignore_decorators := None;
     cli_ignore_names := None; cli_make_whitelist := false;
     cli_min_confidence := None; cli_sort_by_size := false;
     cli_verbose := false |}.

(** A TOML file whose [[tool.vulture]] table is [settings]. *)
Definition toml_of (settings : dict) : toml_file :=
  {| toml_name := "<_io.BytesIO object>";
     toml_load := Ok [("tool", PDict [("vulture", PDict settings)])] |}.

(** The command line and the TOML table of the test [test_config_merging]. *)
Definition merging_cli : cli :=
  {| cli_paths := Some ["cli_path"];
     cli_exclude := Some ["cli_exclude"];
     cli_ignore_decorators := Some ["cli_deco"];
     cli_ignore_names := Some ["cli_name"];
     cli_make_whitelist := true;
     cli_min_confidence := Some 20%Z;
     cli_sort_by_size := true;
     cli_verbose := true |}.

Definition merging_toml : toml_file :=
  toml_of
    [ ("exclude", PList [PStr "toml_exclude"]);
      ("ignore_decorators", PList [PStr "toml_deco"]);
      ("ignore_names", PList [PStr "toml_name"]);
      ("make_whitelist", PBool false);
      ("min_confidence", PInt 10);
      ("sort_by_size", PBool false);
      ("verbose", PBool false);
      ("paths", PList [PStr "toml_path"]) ].

(** The command line and the TOML table of [test_config_merging_missing]. *)
Definition missing_cli : cli :=
  {| cli_paths := Some ["cli_path"]; cli_exclude := None;
     cli_ignore_decorators := None; cli_ignore_names := None;
     cli_make_whitelist := false; cli_min_confidence := None;
     cli_sort_by_size := false; cli_verbose := false |}.

Definition missing_toml : toml_file :=
  toml_of [("verbose", PBool true); ("ignore_names", PList [PStr "name1"])].

(** The command line [--min-confidence 200 src]. *)
Definition over_confident_cli : cli :=
  {| cli_paths := Some ["src"]; cli_exclude := None;
     cli_ignore_decorators := None; cli_ignore_names := None;
     cli_make_whitelist := false; cli_min_confidence := Some 200%Z;
     cli_sort_by_size := false; cli_verbose := false |}.

(** ** The comma-separated arguments

    [csv], the [type] of [--exclude], [--ignore-decorators] and
    [--ignore-names], is [exclude.split(",")]. *)

(** [s.split(sep)] for a separator of one character: the pieces between
    the separators, [piece] being the piece read so far. *)
Fixpoint split_char (sep : ascii) (piece : string) (s : string)
  : list string :=
  match s with
  | EmptyString => [piece]
  | String c s' =>
      if Ascii.eqb c sep then piece :: split_char sep EmptyString s'
      else split_char sep (piece ++ String c EmptyString) s'
  end.

Definition csv (exclude : string) : list string :=
  split_char ","%char EmptyString exclude.

(** The character occurs in the string. *)
Fixpoint has_char (c : ascii) (s : string) : bool :=
  match s with
  | EmptyString => false
  | String c' s' => Ascii.eqb c' c || has_char c s'
  end.

(** The number of occurrences of the character in the string. *)
Fixpoint count_char (c : ascii) (s : string) : nat :=
  match s with
  | EmptyString => 0
  | String c' s' => (if Ascii.eqb c' c then 1 else 0) + count_char c s'
  end.

(** The message of the error that the input check raises for an item. *)
Definition item_message (key : string) : string :=
  match dict_get key DEFAULTS with
  | None => "Unknown configuration key: " ++ key
  | Some dflt =>
      "Data type for " ++ key ++ " must be '" ++ type_name (type_of dflt) ++ "'"
  end.

(** The value is a dict. *)
Definition is_dict (v : pyvalue) : bool :=
  match v with
  | PDict _ => true
  | _ => false
  end.

(** The document has no [[tool.vulture]] table: no [tool] key, or a
    [tool] table without a [vulture] key. *)
Definition no_vulture_table (data : dict) : Prop :=
  dict_get "tool" data = None
  \/ exists tool, dict_get "tool" data = Some (PDict tool)
                  /\ dict_get "vulture" tool = None.

(** [tool], or [vulture] in the [tool] table, is there and is not a
    table. *)
Definition malformed_tables (data : dict) : Prop :=
  (exists v, dict_get "tool" data = Some v /\ is_dict v = false)
  \/ (exists tool v, dict_get "tool" data = Some (PDict tool)
                     /\ dict_get "vulture" tool = Some v
                     /\ is_dict v = false).

(** A document with a table of another tool only. *)
Definition foo_toml : toml_file :=
  {| toml_name := "pyproject.toml";
     toml_load := Ok [("tool", PDict [("foo", PDict [])])] |}.

(** A document with [tool = 1]. *)
Definition tool_int_toml : toml_file :=
  {| toml_name := "pyproject.toml";
     toml_load := Ok [("tool", PInt 1)] |}.

(** A document with [vulture = "all"] in the [tool] table. *)
Definition vulture_str_toml : toml_file :=
  {| toml_name := "pyproject.toml";
     toml_load := Ok [("tool", PDict [("vulture", PStr "all")])] |}.

(** The warning about a missing [.gitignore], when the configuration makes
    [make_config] print it: no exclude patterns and no [.gitignore] found. *)
Definition gitignore_warning (w : world) (config : dict) : list string :=
  match dict_get "exclude" config, dict_get "paths" config with
  | Some exclude, Some paths =>
      if truthy exclude then []
      else
        match find_gitignore w paths with
        | Ok None => [no_gitignore_warning]
        | _ => []
        end
  | _, _ => []
  end.

(** What a run of [make_config] prints. *)
Definition printed (w : world) (ns : namespace)
           (tomlfile : option toml_file) : list string :=
  match merged_of w ns tomlfile with
  | Ok merged =>
      (toml_report w tomlfile merged ++ gitignore_warning w merged)%list
  | Raise _ => []
  end.

(** The command line [--exclude=docs,, src/foo.py]. *)
Definition csv_cli : cli :=
  {| cli_paths := Some ["src/foo.py"]; cli_exclude := Some (csv "docs,");
     cli_ignore_decorators := None; cli_ignore_names := None;
     cli_make_whitelist := false; cli_min_confidence := None;
     cli_sort_by_size := false; cli_verbose := false |}.




(** The result is an [InputError]. *)
Definition is_input_error {A : Type} (r : result A) : bool :=
  match r with
  | Raise (InputError _) => true
  | _ => false
  end.

(** The values [int()], [str()], [list()] and [bool()] of the test
    [test_incompatible_option_type]. *)
Definition empty_values : list pyvalue :=
  [PInt 0; PStr EmptyString; PList []; PBool false].

(** * Properties *)

(** ** Dictionaries *)

Lemma dict_get_set_same (k : string) (v : pyvalue) (d : dict) :
  dict_get k (dict_set k v d) = Some v.
Proof.
  induction d as [|[k' v'] d IH]; simpl.
  - now rewrite String.eqb_refl.
  - destruct (String.eqb k k') eqn:E; simpl; rewrite ?E, ?String.eqb_refl; auto.
Qed.

Lemma dict_get_set_other (k k' : string) (v : pyvalue) (d : dict) :
  k <> k' -> dict_get k (dict_set k' v d) = dict_get k d.
Proof.
  intros Hne. apply String.eqb_neq in Hne.
  induction d as [|[k0 v0] d IH]; simpl.
  - now rewrite Hne.
  - destruct (String.eqb k' k0) eqn:E; simpl.
    + apply String.eqb_eq in E. subst k0. now rewrite Hne.
    + now rewrite IH.
Qed.

Lemma dict_get_set (k k' : string) (v : pyvalue) (d : dict) :
  dict_get k (dict_set k' v d)
  = if String.eqb k k' then Some v else dict_get k d.
Proof.
  destruct (String.eqb_spec k k') as [->|Hne].
  - apply dict_get_set_same.
  - now apply dict_get_set_other.
Qed.

Lemma dict_get_In (k : string) (v : pyvalue) (d : dict) :
  dict_get k d = Some v -> In (k, v) d.
Proof.
  induction d as [|[k' v'] d IH]; simpl; [discriminate|].
  destruct (String.eqb_spec k k') as [->|Hne]; intros H.
  - left. congruence.
  - right. auto.
Qed.

Lemma In_dict_mem (k : string) (v : pyvalue) (d : dict) :
  In (k, v) d -> dict_mem k d = true.
Proof.
  unfold dict_mem.
  induction d as [|[k' v'] d IH]; simpl; [tauto|].
  intros [H|H].
  - inversion H; subst. now rewrite String.eqb_refl.
  - destruct (String.eqb k k'); auto.
Qed.

Lemma dict_mem_In (k : string) (d : dict) :
  dict_mem k d = true -> exists v, In (k, v) d.
Proof.
  unfold dict_mem. destruct (dict_get k d) as [v|] eqn:E; [|discriminate].
  intros _. exists v. now apply dict_get_In.
Qed.

(** ** The input check *)

Lemma pytype_eqb_eq (a b : pytype) : pytype_eqb a b = true <-> a = b.
Proof.
  destruct a, b; simpl; split; intros H;
    try reflexivity; try discriminate.
  - apply String.eqb_eq in H. now subst.
  - inversion H. apply String.eqb_refl.
Qed.

Lemma check_item_cases (k : string) (v : pyvalue) :
  check_item k v = Ok tt \/ exists msg, check_item k v = Raise (InputError msg).
Proof.
  unfold check_item. destruct (dict_get k DEFAULTS) as [d|]; [|eauto].
  destruct (negb _); eauto.
Qed.

Lemma check_item_ok (k : string) (v : pyvalue) :
  check_item k v = Ok tt <-> well_typed k v.
Proof.
  unfold check_item, well_typed. split.
  - destruct (dict_get k DEFAULTS) as [d|]; [|discriminate].
    destruct (pytype_eqb (type_of v) (type_of d)) eqn:E; simpl; [|discriminate].
    intros _. exists d. split; auto. now apply pytype_eqb_eq.
  - intros (d & -> & Ht). apply pytype_eqb_eq in Ht. now rewrite Ht.
Qed.

Lemma check_input_cases (data : dict) :
  _check_input_config data = Ok tt
  \/ exists msg, _check_input_config data = Raise (InputError msg).
Proof.
  induction data as [|[k v] data IH]; simpl; [now left|].
  destruct (check_item_cases k v) as [->|[msg ->]]; simpl; eauto.
Qed.

Lemma check_input_ok (data : dict) :
  _check_input_config data = Ok tt
  <-> forall k v, In (k, v) data -> well_typed k v.
Proof.
  induction data as [|[k v] data IH]; simpl.
  - split; [tauto | reflexivity].
  - split.
    + destruct (check_item k v) as [[]|] eqn:E; simpl; [|discriminate].
      intros H k0 v0 [H0|H0].
      * inversion H0; subst. now apply check_item_ok.
      * now apply IH.
    + intros H.
      assert (E : check_item k v = Ok tt) by (apply check_item_ok; auto).
      rewrite E. simpl. apply IH. auto.
Qed.

(** An item that fails the check makes the whole check raise [InputError]. *)
Lemma check_input_bad_item (data : dict) (k : string) (v : pyvalue) :
  In (k, v) data -> ~ well_typed k v ->
  exists msg, _check_input_config data = Raise (InputError msg).
Proof.
  intros Hin Hbad.
  destruct (check_input_cases data) as [Hok|Hraise]; auto.
  exfalso. apply Hbad. eapply check_input_ok; eauto.
Qed.

Lemma unknown_not_well_typed (k : string) (v : pyvalue) :
  ~ recognized k -> ~ well_typed k v.
Proof.
  unfold recognized, dict_mem. intros Hn (d & Hd & _). rewrite Hd in Hn. auto.
Qed.

Lemma check_input_unknown (data : dict) :
  has_unknown_key data ->
  exists msg, _check_input_config data = Raise (InputError msg).
Proof.
  intros (k & v & Hin & Hn).
  eapply check_input_bad_item; eauto using unknown_not_well_typed.
Qed.

Lemma check_input_wrong_type (data : dict) :
  has_wrong_type data ->
  exists msg, _check_input_config data = Raise (InputError msg).
Proof.
  intros (k & v & d & Hin & Hd & Ht).
  eapply check_input_bad_item; eauto.
  intros (d' & Hd' & Ht'). congruence.
Qed.

(** With recognized keys only, no item is reported as unknown. *)
Lemma check_input_no_unknown (data : dict) (k : string) :
  (forall k' v, In (k', v) data -> recognized k') ->
  _check_input_config data
  <> Raise (InputError ("Unknown configuration key: " ++ k)).
Proof.
  induction data as [|[k0 v0] data IH]; simpl; intros Hrec; [discriminate|].
  assert (H0 : recognized k0) by (eapply Hrec; eauto).
  unfold recognized, dict_mem in H0. unfold check_item.
  destruct (dict_get k0 DEFAULTS) as [d|]; [|discriminate].
  destruct (negb _); simpl.
  - discriminate.
  - apply IH. eauto.
Qed.

(** ** Updating and merging *)

Lemma keys_dict_set (k : string) (v : pyvalue) (d : dict) :
  keys (dict_set k v d) = if dict_mem k d then keys d else (keys d ++ [k])%list.
Proof.
  unfold dict_mem, keys.
  induction d as [|[k' v'] d IH]; simpl; [reflexivity|].
  destruct (String.eqb_spec k k') as [->|Hne]; simpl; [reflexivity|].
  rewrite IH. now destruct (dict_get k d).
Qed.

Lemma dict_mem_keys (k : string) (d : dict) :
  dict_mem k d = true <-> In k (keys d).
Proof.
  split.
  - intros H. apply dict_mem_In in H as [v H].
    unfold keys. change k with (fst (k, v)). now apply in_map.
  - unfold keys. intros H. apply in_map_iff in H as [[k' v] [<- H]].
    simpl. now apply In_dict_mem with v.
Qed.

Lemma NoDup_keys_dict_set (k : string) (v : pyvalue) (d : dict) :
  NoDup (keys d) -> NoDup (keys (dict_set k v d)).
Proof.
  intros H. rewrite keys_dict_set.
  destruct (dict_mem k d) eqn:E; auto.
  apply NoDup_app; auto.
  - repeat constructor. simpl. tauto.
  - intros x Hx [<-|[]]. apply dict_mem_keys in Hx. congruence.
Qed.

Lemma dict_get_None_keys (k : string) (d : dict) :
  dict_get k d = None <-> ~ In k (keys d).
Proof.
  rewrite <- dict_mem_keys. unfold dict_mem.
  destruct (dict_get k d); split; intros H; auto; try discriminate.
  exfalso. now apply H.
Qed.

Lemma dict_get_last_NoDup (k : string) (d : dict) :
  NoDup (keys d) -> dict_get_last k d = dict_get k d.
Proof.
  induction d as [|[k' v'] d IH]; simpl; [reflexivity|].
  intros H. inversion H as [|? ? Hnin Hnd]; subst.
  rewrite (IH Hnd).
  destruct (String.eqb_spec k k') as [->|Hne].
  - apply dict_get_None_keys in Hnin. now rewrite Hnin.
  - now destruct (dict_get k d).
Qed.

Lemma dict_get_update_from (k : string) (other d : dict) :
  dict_get k (dict_update d other)
  = match dict_get_last k other with
    | Some v => Some v
    | None => dict_get k d
    end.
Proof.
  unfold dict_update. revert d.
  induction other as [|[k' v'] other IH]; intros d; simpl; [reflexivity|].
  rewrite IH. destruct (dict_get_last k other); [reflexivity|].
  rewrite dict_get_set. now destruct (String.eqb k k').
Qed.

Lemma cli_args_fold_get (k : string) (ns : namespace) (acc : dict) :
  dict_get k
    (fold_left
       (fun acc kv =>
          match snd kv with
          | given v => dict_set (fst kv) v acc
          | missing => acc
          end) ns acc)
  = match last_given k ns with
    | Some v => Some v
    | None => dict_get k acc
    end.
Proof.
  revert acc.
  induction ns as [|[k' a] ns IH]; intros acc; simpl; [reflexivity|].
  rewrite IH. destruct (last_given k ns); [reflexivity|].
  destruct a; simpl; [reflexivity|].
  rewrite dict_get_set. now destruct (String.eqb k k').
Qed.

Lemma cli_args_fold_NoDup (ns : namespace) (acc : dict) :
  NoDup (keys acc) ->
  NoDup (keys
    (fold_left
       (fun acc kv =>
          match snd kv with
          | given v => dict_set (fst kv) v acc
          | missing => acc
          end) ns acc)).
Proof.
  revert acc.
  induction ns as [|[k' a] ns IH]; intros acc H; simpl; [assumption|].
  apply IH. destruct a; auto using NoDup_keys_dict_set.
Qed.

Lemma cli_args_get (k : string) (ns : namespace) :
  dict_get k (cli_args_of ns) = last_given k ns.
Proof.
  unfold cli_args_of. rewrite cli_args_fold_get.
  now destruct (last_given k ns).
Qed.

Lemma cli_args_NoDup (ns : namespace) : NoDup (keys (cli_args_of ns)).
Proof. apply cli_args_fold_NoDup. constructor. Qed.

(** The sentinel gives no item: an attribute that is [missing] wherever it
    occurs is not a key of the CLI mapping. *)
Lemma last_given_missing (k : string) (ns : namespace) :
  (forall a, In (k, a) ns -> a = missing) -> last_given k ns = None.
Proof.
  induction ns as [|[k' a] ns IH]; simpl; intros H; [reflexivity|].
  rewrite IH by auto.
  destruct a as [|v]; [reflexivity|].
  destruct (String.eqb_spec k k') as [->|Hne]; [|reflexivity].
  specialize (H (given v) (or_introl eq_refl)). discriminate.
Qed.

Lemma last_given_In (k : string) (v : pyvalue) (ns : namespace) :
  In (k, given v) ns -> exists v', last_given k ns = Some v'.
Proof.
  induction ns as [|[k' a] ns IH]; simpl; [tauto|].
  intros [H|H].
  - inversion H; subst. destruct (last_given k ns); eauto.
    rewrite String.eqb_refl. eauto.
  - destruct (IH H) as [v' ->]. eauto.
Qed.

Lemma dict_get_setdefault (k k' : string) (v : pyvalue) (d : dict) :
  dict_get k (dict_setdefault k' v d)
  = match dict_get k d with
    | Some x => Some x
    | None => if String.eqb k k' then Some v else None
    end.
Proof.
  unfold dict_setdefault, dict_mem.
  destruct (dict_get k' d) eqn:E.
  - destruct (String.eqb_spec k k') as [->|Hne].
    + now rewrite E.
    + now destruct (dict_get k d).
  - rewrite dict_get_set.
    destruct (String.eqb_spec k k') as [->|Hne].
    + now rewrite E.
    + now destruct (dict_get k d).
Qed.

Lemma dict_get_setdefaults (k : string) (defs d : dict) :
  dict_get k
    (fold_left (fun acc kv => dict_setdefault (fst kv) (snd kv) acc) defs d)
  = match dict_get k d with
    | Some x => Some x
    | None => dict_get k defs
    end.
Proof.
  revert d.
  induction defs as [|[k' v'] defs IH]; intros d; simpl.
  - now destruct (dict_get k d).
  - rewrite IH, dict_get_setdefault.
    destruct (dict_get k d); [reflexivity|].
    now destruct (String.eqb k k').
Qed.

(** What the merged configuration holds for a key: the CLI value, else the
    TOML value, else the default. *)
Lemma dict_get_merge (k : string) (toml_config cli_config : dict) :
  NoDup (keys cli_config) ->
  dict_get k (merge_config toml_config cli_config)
  = match dict_get k cli_config with
    | Some v => Some v
    | None =>
        match dict_get k toml_config with
        | Some v => Some v
        | None => dict_get k DEFAULTS
        end
    end.
Proof.
  intros Hnd. unfold merge_config, set_defaults.
  rewrite dict_get_setdefaults, dict_get_update_from.
  rewrite dict_get_last_NoDup by assumption.
  now destruct (dict_get k cli_config).
Qed.

(** ** The stages of [make_config] *)

Lemma load_config_source (w : world) (tomlfile : option toml_file) :
  load_config w tomlfile
  = match toml_source w tomlfile with
    | Some f => config <- _parse_toml f ;; Ok (toml_name f, config)
    | None => Ok (EmptyString, [])
    end.
Proof.
  unfold load_config, toml_source. destruct tomlfile as [f|]; [reflexivity|].
  now destruct (is_file w (resolve w "pyproject.toml")).
Qed.

Lemma parse_args_cases (ns : namespace) :
  _parse_args ns = Ok (cli_args_of ns)
  \/ exists msg, _parse_args ns = Raise (InputError msg).
Proof.
  unfold _parse_args.
  destruct (check_input_cases (cli_args_of ns)) as [->|[msg ->]]; simpl; eauto.
Qed.

Lemma parse_args_ok (ns : namespace) (cli_config : dict) :
  _parse_args ns = Ok cli_config ->
  cli_config = cli_args_of ns /\ _check_input_config cli_config = Ok tt.
Proof.
  unfold _parse_args.
  destruct (_check_input_config (cli_args_of ns)) as [[]|] eqn:E; simpl;
    [|discriminate].
  intros H. inversion H; subst. auto.
Qed.

Lemma parse_toml_ok (f : toml_file) (config : dict) :
  _parse_toml f = Ok config ->
  exists data, toml_load f = Ok data
               /\ toml_settings data = Ok (PDict config)
               /\ _check_input_config config = Ok tt.
Proof.
  unfold _parse_toml.
  destruct (toml_load f) as [data|]; simpl; [|discriminate].
  destruct (toml_settings data) as [settings|] eqn:Es; simpl; [|discriminate].
  destruct settings; simpl; try discriminate.
  destruct (_check_input_config d) as [[]|] eqn:E; simpl; [|discriminate].
  intros H. inversion H; subst. exists data. auto.
Qed.

Lemma load_config_ok (w : world) (tomlfile : option toml_file)
      (loaded : string * dict) :
  load_config w tomlfile = Ok loaded ->
  _check_input_config (snd loaded) = Ok tt.
Proof.
  rewrite load_config_source.
  destruct (toml_source w tomlfile) as [f|].
  - destruct (_parse_toml f) as [config|] eqn:E; simpl; [|discriminate].
    intros H. inversion H; subst. simpl.
    now apply parse_toml_ok in E as (data & _ & _ & E).
  - intros H. inversion H. reflexivity.
Qed.

Lemma make_config_parse_error (w : world) (ns : namespace)
      (tomlfile : option toml_file) (e : exn) :
  _parse_args ns = Raise e -> run (make_config w ns tomlfile) = ([], Raise e).
Proof.
  intros H. unfold run, make_config, io_bind, lift. now rewrite H.
Qed.

Lemma make_config_load_error (w : world) (ns : namespace)
      (tomlfile : option toml_file) (cli_config : dict) (e : exn) :
  _parse_args ns = Ok cli_config -> load_config w tomlfile = Raise e ->
  run (make_config w ns tomlfile) = ([], Raise e).
Proof.
  intros H1 H2. unfold run, make_config, io_bind, lift. now rewrite H1, H2.
Qed.

(** ** C1: unknown options *)

(** C1. A mapping with a key that is not one of [DEFAULTS] makes
    [_check_input_config] raise [InputError]; so [_parse_args], on a namespace
    that gives a value to such a key, [_parse_toml], on a file whose
    [[tool.vulture]] table has such a key, and [make_config], on either,
    raise [InputError] and produce no config.  On a mapping whose keys are all
    recognized, the check never reports an unknown key. *)
Theorem unknown_key_aborts :
  (forall data, has_unknown_key data ->
     exists msg, _check_input_config data = Raise (InputError msg))
  /\ (forall ns k v, In (k, given v) ns -> ~ recognized k ->
        exists msg, _parse_args ns = Raise (InputError msg))
  /\ (forall f data settings,
        toml_load f = Ok data -> toml_settings data = Ok (PDict settings) ->
        has_unknown_key settings ->
        exists msg, _parse_toml f = Raise (InputError msg))
  /\ (forall w ns tomlfile k v, In (k, given v) ns -> ~ recognized k ->
        exists msg,
          run (make_config w ns tomlfile) = ([], Raise (InputError msg)))
  /\ (forall w ns tomlfile f data settings,
        toml_source w tomlfile = Some f ->
        toml_load f = Ok data -> toml_settings data = Ok (PDict settings) ->
        has_unknown_key settings ->
        exists msg,
          run (make_config w ns tomlfile) = ([], Raise (InputError msg)))
  /\ (forall data k,
        (forall k' v, In (k', v) data -> recognized k') ->
        _check_input_config data
        <> Raise (InputError ("Unknown configuration key: " ++ k))).
Proof.
  assert (Hargs : forall ns k v, In (k, given v) ns -> ~ recognized k ->
            exists msg, _parse_args ns = Raise (InputError msg)).
  { intros ns k v Hin Hn. unfold _parse_args.
    destruct (@check_input_unknown (cli_args_of ns)) as [msg Hmsg].
    - destruct (last_given_In _ _ _ Hin) as [v' Hv'].
      exists k, v'. split; auto.
      apply dict_get_In. now rewrite cli_args_get.
    - exists msg. now rewrite Hmsg. }
  assert (Htoml : forall f data settings,
            toml_load f = Ok data -> toml_settings data = Ok (PDict settings) ->
            has_unknown_key settings ->
            exists msg, _parse_toml f = Raise (InputError msg)).
  { intros f data settings Hl Hs Hu.
    destruct (check_input_unknown Hu) as [msg Hmsg].
    exists msg. unfold _parse_toml. rewrite Hl. simpl. rewrite Hs. simpl.
    now rewrite Hmsg. }
  repeat split.
  - apply check_input_unknown.
  - exact Hargs.
  - exact Htoml.
  - intros w ns tomlfile k v Hin Hn.
    destruct (Hargs ns k v Hin Hn) as [msg Hmsg].
    exists msg. now apply make_config_parse_error.
  - intros w ns tomlfile f data settings Hsrc Hl Hs Hu.
    destruct (parse_args_cases ns) as [Hok|[msg Hmsg]].
    + destruct (Htoml f data settings Hl Hs Hu) as [msg Hmsg].
      exists msg. eapply make_config_load_error; eauto.
      rewrite load_config_source, Hsrc, Hmsg. reflexivity.
    + exists msg. now apply make_config_parse_error.
  - intros data k. apply check_input_no_unknown.
Qed.

(** The test [test_invalid_config_options_output], and the same unknown key
    on the command line and in the TOML table. *)
Lemma unknown_key_aborts_witness :
  (exists msg,
     _check_input_config [("unknown_key_1", PInt 1)] = Raise (InputError msg))
  /\ (exists msg,
        run (make_config test_world
               (("unknown_key_1", given (PInt 1)) :: vars no_args) None)
        = ([], Raise (InputError msg)))
  /\ (exists msg,
        run (make_config test_world (vars no_args)
               (Some (toml_of [("unknown_key_1", PInt 1)])))
        = ([], Raise (InputError msg)))
  /\ _check_input_config [("verbose", PBool true)]
     <> Raise (InputError ("Unknown configuration key: " ++ "verbose")).
Proof.
  destruct unknown_key_aborts as (H1 & _ & _ & H4 & H5 & H6).
  split; [|split; [|split]].
  - apply H1. exists "unknown_key_1", (PInt 1).
    split; [left; reflexivity | unfold recognized; simpl; discriminate].
  - apply H4 with (k := "unknown_key_1") (v := PInt 1).
    + left; reflexivity.
    + unfold recognized; simpl; discriminate.
  - eapply H5.
    + reflexivity.
    + reflexivity.
    + reflexivity.
    + exists "unknown_key_1", (PInt 1).
      split; [left; reflexivity | unfold recognized; simpl; discriminate].
  - apply H6. intros k' v [H|[]]. inversion H; subst. reflexivity.
Defined.

(** ** C2: values of the wrong type *)

Lemma check_single_wrong (k : string) (v dflt : pyvalue) :
  dict_get k DEFAULTS = Some dflt -> type_of v <> type_of dflt ->
  _check_input_config [(k, v)]
  = Raise (InputError ("Data type for " ++ k ++ " must be '"
                       ++ type_name (type_of dflt) ++ "'")).
Proof.
  intros Hd Ht. simpl. unfold check_item. rewrite Hd.
  destruct (pytype_eqb (type_of v) (type_of dflt)) eqn:E; simpl; auto.
  apply pytype_eqb_eq in E. contradiction.
Qed.

(** C2. For a recognized key, a value whose type is not the type of the
    key's default makes [_check_input_config] raise [InputError], alone in
    the mapping (with the message that names the expected type) or among
    other items; values of the expected types pass the check. *)
Theorem wrong_type_rejected :
  (forall k v dflt,
     dict_get k DEFAULTS = Some dflt -> type_of v <> type_of dflt ->
     _check_input_config [(k, v)]
     = Raise (InputError ("Data type for " ++ k ++ " must be '"
                          ++ type_name (type_of dflt) ++ "'")))
  /\ (forall data, has_wrong_type data ->
        exists msg, _check_input_config data = Raise (InputError msg))
  /\ (forall k v dflt,
        dict_get k DEFAULTS = Some dflt -> type_of v = type_of dflt ->
        _check_input_config [(k, v)] = Ok tt)
  /\ (forall data,
        (forall k v, In (k, v) data -> well_typed k v) ->
        _check_input_config data = Ok tt).
Proof.
  repeat split.
  - apply check_single_wrong.
  - apply check_input_wrong_type.
  - intros k v dflt Hd Ht. apply check_input_ok.
    intros k' v' [H|[]]. inversion H; subst. exists dflt. auto.
  - intros data. apply check_input_ok.
Qed.

(** A string for [min_confidence], a string for [ignore_names]; an int for
    [min_confidence] and a list for [ignore_names]. *)
Lemma wrong_type_rejected_witness :
  _check_input_config [("min_confidence", PStr "10")]
  = Raise (InputError "Data type for min_confidence must be 'int'")
  /\ _check_input_config [("ignore_names", PStr "visit_*")]
     = Raise (InputError "Data type for ignore_names must be 'list'")
  /\ (exists msg,
        _check_input_config
          [("verbose", PBool true); ("ignore_names", PStr "visit_*")]
        = Raise (InputError msg))
  /\ _check_input_config [("min_confidence", PInt 10)] = Ok tt
  /\ _check_input_config
       [("min_confidence", PInt 10); ("ignore_names", PList [PStr "visit_*"])]
     = Ok tt.
Proof.
  destruct wrong_type_rejected as (H1 & H2 & H3 & H4).
  split; [|split; [|split; [|split]]].
  - apply (H1 "min_confidence" (PStr "10") (PInt 0)); [reflexivity|discriminate].
  - apply (H1 "ignore_names" (PStr "visit_*") (PList []));
      [reflexivity|discriminate].
  - apply H2. exists "ignore_names", (PStr "visit_*"), (PList []).
    split; [right; left; reflexivity|]. split; [reflexivity|discriminate].
  - apply (H3 "min_confidence" (PInt 10) (PInt 0)); reflexivity.
  - apply H4. intros k v [H|[H|[]]]; inversion H; subst.
    + exists (PInt 0). split; reflexivity.
    + exists (PList []). split; reflexivity.
Defined.

(** ** C10: bool is not int *)

(** C10. The check tells [bool] from [int]: [True] or [False] for
    [min_confidence], and an integer for [make_whitelist], [sort_by_size] or
    [verbose], make [_check_input_config] raise [InputError], alone in the
    mapping or among other items. *)
Theorem bool_int_distinguished :
  (forall b,
     _check_input_config [("min_confidence", PBool b)]
     = Raise (InputError "Data type for min_confidence must be 'int'"))
  /\ (forall z k,
        In k ["make_whitelist"; "sort_by_size"; "verbose"] ->
        _check_input_config [(k, PInt z)]
        = Raise (InputError ("Data type for " ++ k ++ " must be 'bool'")))
  /\ (forall b data,
        In ("min_confidence", PBool b) data ->
        exists msg, _check_input_config data = Raise (InputError msg))
  /\ (forall z k data,
        In k ["make_whitelist"; "sort_by_size"; "verbose"] ->
        In (k, PInt z) data ->
        exists msg, _check_input_config data = Raise (InputError msg)).
Proof.
  split; [|split; [|split]].
  - intros b. reflexivity.
  - intros z k Hk. simpl in Hk.
    destruct Hk as [<-|[<-|[<-|[]]]]; reflexivity.
  - intros b data Hin. apply check_input_wrong_type.
    exists "min_confidence", (PBool b), (PInt 0).
    split; [assumption|]. split; [reflexivity|discriminate].
  - intros z k data Hk Hin. apply check_input_wrong_type.
    exists k, (PInt z), (PBool false).
    split; [assumption|].
    simpl in Hk. destruct Hk as [<-|[<-|[<-|[]]]];
      (split; [reflexivity|discriminate]).
Qed.

Lemma bool_int_distinguished_witness :
  _check_input_config [("verbose", PInt 1)]
  = Raise (InputError ("Data type for " ++ "verbose" ++ " must be 'bool'"))
  /\ (exists msg,
        _check_input_config
          [("paths", PList [PStr "src"]); ("min_confidence", PBool true)]
        = Raise (InputError msg))
  /\ (exists msg,
        _check_input_config
          [("paths", PList [PStr "src"]); ("make_whitelist", PInt 0)]
        = Raise (InputError msg)).
Proof.
  destruct bool_int_distinguished as (_ & H2 & H3 & H4).
  split; [|split].
  - apply H2. simpl. tauto.
  - apply (H3 true). right; left; reflexivity.
  - apply (H4 0%Z "make_whitelist").
    + simpl. tauto.
    + right; left; reflexivity.
Defined.

(** ** C5: the recognized options *)

(** C5 as stated fails: [paths] is outside the listed options and is
    accepted, not rejected as unknown. *)
Lemma listed_options_not_exact :
  ~ (forall k, ~ In k listed_options -> rejected_as_unknown k).
Proof.
  intros H.
  assert (Hp : ~ In "paths" listed_options).
  { simpl. intros [E|[E|[E|[E|[E|[E|[]]]]]]]; discriminate. }
  specialize (H "paths" Hp (PList [PStr "src"])).
  simpl in H. discriminate.
Qed.

Lemma recognized_iff (k : string) : recognized k <-> In k (keys DEFAULTS).
Proof. apply dict_mem_keys. Qed.

Lemma accepted_iff_recognized (k : string) : accepted k <-> recognized k.
Proof.
  unfold accepted, recognized, dict_mem. split.
  - intros [v H]. simpl in H. unfold check_item in H.
    destruct (dict_get k DEFAULTS); [reflexivity|discriminate].
  - destruct (dict_get k DEFAULTS) as [d|] eqn:E; [|discriminate].
    intros _. exists d. simpl. unfold check_item. rewrite E.
    assert (Ht : pytype_eqb (type_of d) (type_of d) = true)
      by now apply pytype_eqb_eq.
    now rewrite Ht.
Qed.

(** C5, amended. The recognized options are exactly the eight keys of
    [DEFAULTS], the six listed ones and [paths] and [exclude]: each of them
    is accepted, and every other key is rejected as unknown. *)
Theorem recognized_options_exact :
  keys DEFAULTS
  = [ "min_confidence"; "paths"; "exclude"; "ignore_decorators";
      "ignore_names"; "make_whitelist"; "sort_by_size"; "verbose" ]
  /\ (forall k, In k listed_options \/ k = "paths" \/ k = "exclude"
                <-> In k (keys DEFAULTS))
  /\ (forall k, In k (keys DEFAULTS) <-> accepted k)
  /\ (forall k, ~ In k (keys DEFAULTS) <-> rejected_as_unknown k).
Proof.
  split; [reflexivity|]. split; [|split].
  - intros k. simpl. intuition (subst; auto 10).
  - intros k. rewrite accepted_iff_recognized. symmetry. apply recognized_iff.
  - intros k. rewrite <- recognized_iff. unfold recognized, dict_mem. split.
    + intros Hn v. simpl. unfold check_item.
      destruct (dict_get k DEFAULTS); [exfalso; auto | reflexivity].
    + intros Hr. specialize (Hr PNone). simpl in Hr. unfold check_item in Hr.
      destruct (dict_get k DEFAULTS) as [d|]; [|discriminate].
      destruct (negb _); simpl in Hr; discriminate.
Qed.

(** ** The merged configuration *)

Lemma merged_of_ok (w : world) (ns : namespace) (tomlfile : option toml_file)
      (merged : dict) :
  merged_of w ns tomlfile = Ok merged ->
  exists name toml_config,
    _parse_args ns = Ok (cli_args_of ns)
    /\ load_config w tomlfile = Ok (name, toml_config)
    /\ _check_input_config (cli_args_of ns) = Ok tt
    /\ _check_input_config toml_config = Ok tt
    /\ merged = merge_config toml_config (cli_args_of ns).
Proof.
  unfold merged_of.
  destruct (_parse_args ns) as [cli_config|] eqn:Ea; simpl; [|discriminate].
  destruct (load_config w tomlfile) as [[name toml_config]|] eqn:El; simpl;
    [|discriminate].
  intros H. inversion H; subst.
  apply parse_args_ok in Ea as [-> Hc].
  exists name, toml_config. repeat split; auto.
  now apply load_config_ok in El.
Qed.

Lemma merged_of_get (w : world) (ns : namespace)
      (tomlfile : option toml_file) (merged : dict) (k : string) :
  merged_of w ns tomlfile = Ok merged ->
  exists toml_config,
    toml_config_of w tomlfile = Ok toml_config
    /\ dict_get k merged
       = match last_given k ns with
         | Some v => Some v
         | None =>
             match dict_get k toml_config with
             | Some v => Some v
             | None => dict_get k DEFAULTS
             end
         end.
Proof.
  intros H. apply merged_of_ok in H
    as (name & toml_config & _ & Hl & _ & _ & ->).
  exists toml_config. split.
  - unfold toml_config_of. now rewrite Hl.
  - rewrite dict_get_merge by apply cli_args_NoDup.
    now rewrite cli_args_get.
Qed.

Lemma default_well_typed (k : string) (dflt : pyvalue) :
  dict_get k DEFAULTS = Some dflt -> well_typed k dflt.
Proof. intros H. exists dflt. auto. Qed.

(** Every value of the merged configuration has the type of its default. *)
Lemma merged_well_typed (w : world) (ns : namespace)
      (tomlfile : option toml_file) (merged : dict) (k : string)
      (v : pyvalue) :
  merged_of w ns tomlfile = Ok merged ->
  dict_get k merged = Some v -> well_typed k v.
Proof.
  intros H Hk. apply merged_of_ok in H
    as (name & toml_config & _ & _ & Hc & Ht & ->).
  rewrite dict_get_merge in Hk by apply cli_args_NoDup.
  destruct (dict_get k (cli_args_of ns)) as [v1|] eqn:E1.
  - inversion Hk; subst.
    apply (proj1 (check_input_ok _) Hc). now apply dict_get_In.
  - destruct (dict_get k toml_config) as [v2|] eqn:E2.
    + inversion Hk; subst.
      apply (proj1 (check_input_ok _) Ht). now apply dict_get_In.
    + now apply default_well_typed.
Qed.

(** The merged configuration has a value for every key of [DEFAULTS]. *)
Lemma merged_complete (w : world) (ns : namespace)
      (tomlfile : option toml_file) (merged : dict) (k : string)
      (dflt : pyvalue) :
  merged_of w ns tomlfile = Ok merged ->
  dict_get k DEFAULTS = Some dflt ->
  exists v, dict_get k merged = Some v /\ type_of v = type_of dflt.
Proof.
  intros H Hd.
  destruct (@merged_of_get w ns tomlfile merged k H) as (toml_config & _ & Hk).
  assert (Hsome : exists v, dict_get k merged = Some v).
  { rewrite Hk. destruct (last_given k ns); eauto.
    destruct (dict_get k toml_config); eauto. }
  destruct Hsome as [v Hv]. exists v. split; auto.
  destruct (@merged_well_typed w ns tomlfile merged k v H Hv)
    as (d' & Hd' & Ht). congruence.
Qed.

(** ** Running [make_config] from the merged configuration *)

Lemma make_config_from_merged (w : world) (ns : namespace)
      (tomlfile : option toml_file) (merged : dict) :
  merged_of w ns tomlfile = Ok merged ->
  run (make_config w ns tomlfile)
  = checked (resolve_exclude w merged (toml_report w tomlfile merged)).
Proof.
  intros H.
  destruct (@merged_complete w ns tomlfile merged "verbose" (PBool false)
              H eq_refl) as (verbose & Hv & _).
  destruct (@merged_of_ok w ns tomlfile merged H)
    as (name & toml_config & Ha & Hl & _ & _ & Hm).
  unfold run, make_config, io_bind, lift. rewrite Ha, Hl. simpl.
  rewrite <- Hm.
  assert (Hr : report_toml name merged []
               = (toml_report w tomlfile merged, Ok tt)).
  { unfold report_toml, toml_report.
    rewrite load_config_source in Hl.
    destruct (toml_source w tomlfile) as [f|].
    - destruct (_parse_toml f); simpl in Hl; [|discriminate].
      inversion Hl; subst.
      destruct (truthy (PStr (toml_name f))); [|reflexivity].
      unfold io_bind, lift, dict_index. rewrite Hv.
      destruct (truthy verbose); reflexivity.
    - inversion Hl; subst. reflexivity. }
  rewrite Hr. unfold checked.
  destruct (resolve_exclude w merged (toml_report w tomlfile merged))
    as [out [config|e]]; [|reflexivity].
  destruct (_check_output_config config) as [[]|]; reflexivity.
Qed.

Lemma make_config_ok (w : world) (ns : namespace)
      (tomlfile : option toml_file) (out : list string) (cfg : dict) :
  run (make_config w ns tomlfile) = (out, Ok cfg) ->
  exists merged,
    merged_of w ns tomlfile = Ok merged
    /\ resolve_exclude w merged (toml_report w tomlfile merged) = (out, Ok cfg)
    /\ _check_output_config cfg = Ok tt.
Proof.
  intros H.
  destruct (merged_of w ns tomlfile) as [merged|e] eqn:Em.
  - exists merged. split; [reflexivity|].
    rewrite (@make_config_from_merged w ns tomlfile merged Em) in H. unfold checked in H.
    destruct (resolve_exclude w merged (toml_report w tomlfile merged))
      as [out' [config|e]]; [|inversion H].
    destruct (_check_output_config config) as [[]|] eqn:Ec; simpl in H;
      inversion H; subst. auto.
  - exfalso. unfold merged_of in Em.
    destruct (_parse_args ns) as [cli_config|e1] eqn:Ea; simpl in Em.
    + destruct (load_config w tomlfile) as [loaded|e2] eqn:El; simpl in Em;
        [discriminate|].
      rewrite (@make_config_load_error w ns tomlfile _ _ Ea El) in H. inversion H.
    + rewrite (@make_config_parse_error w ns tomlfile _ Ea) in H. inversion H.
Qed.

(** ** Resolving the exclude patterns *)

(** What [resolve_exclude] does, case by case. *)
Lemma resolve_exclude_eq (w : world) (config : dict) (out : list string)
      (exclude paths : pyvalue) :
  dict_get "exclude" config = Some exclude ->
  dict_get "paths" config = Some paths ->
  resolve_exclude w config out
  = if truthy exclude then
      match py_iter exclude with
      | Ok items =>
          match map_result (fnmatch_to_regex w) items with
          | Ok regexes =>
              (out, Ok (dict_set "exclude" (PList regexes) config))
          | Raise e => (out, Raise e)
          end
      | Raise e => (out, Raise e)
      end
    else
      match find_gitignore w paths with
      | Ok (Some g) =>
          (out, Ok (dict_set "exclude"
                             (PList (_parse_gitignore_excludes w g)) config))
      | Ok None => ((out ++ [no_gitignore_warning])%list, Ok config)
      | Raise e => (out, Raise e)
      end.
Proof.
  intros He Hp. unfold resolve_exclude, io_bind, lift, dict_index, io_ret.
  rewrite He. destruct (truthy exclude); simpl.
  - destruct (py_iter exclude) as [items|]; [|reflexivity].
    destruct (map_result (fnmatch_to_regex w) items); reflexivity.
  - rewrite Hp. destruct (find_gitignore w paths) as [[g|]|]; reflexivity.
Qed.

(** Resolving the exclude patterns changes the [exclude] item at most. *)
Lemma resolve_exclude_other (w : world) (config cfg : dict)
      (out out' : list string) (k : string) :
  resolve_exclude w config out = (out', Ok cfg) ->
  k <> "exclude" -> dict_get k cfg = dict_get k config.
Proof.
  unfold resolve_exclude, io_bind, lift, dict_index, io_ret, print.
  intros H Hk.
  destruct (dict_get "exclude" config) as [exclude|]; [|inversion H].
  destruct (truthy exclude); simpl in H.
  - destruct (py_iter exclude) as [items|]; [|inversion H].
    destruct (map_result (fnmatch_to_regex w) items); inversion H; subst.
    now apply dict_get_set_other.
  - destruct (dict_get "paths" config) as [paths|]; [|inversion H].
    destruct (find_gitignore w paths) as [[g|]|]; inversion H; subst.
    + now apply dict_get_set_other.
    + reflexivity.
Qed.

(** The [exclude] item after the resolution is a list when it was one. *)
Lemma resolve_exclude_list (w : world) (config cfg : dict)
      (out out' : list string) (exclude : pyvalue) :
  resolve_exclude w config out = (out', Ok cfg) ->
  dict_get "exclude" config = Some exclude -> type_of exclude = TList ->
  exists l, dict_get "exclude" cfg = Some (PList l).
Proof.
  unfold resolve_exclude, io_bind, lift, dict_index, io_ret, print.
  intros H He Ht. rewrite He in H.
  destruct (truthy exclude); simpl in H.
  - destruct (py_iter exclude) as [items|]; [|inversion H].
    destruct (map_result (fnmatch_to_regex w) items) as [regexes|];
      inversion H; subst.
    exists regexes. apply dict_get_set_same.
  - destruct (dict_get "paths" config) as [paths|]; [|inversion H].
    destruct (find_gitignore w paths) as [[g|]|]; inversion H; subst.
    + eexists. apply dict_get_set_same.
    + destruct exclude; try discriminate. eauto.
Qed.

(** ** Without paths, the current directory *)

Lemma parents_nonempty (a : string) (q : path) : parents (a :: q) <> [].
Proof.
  unfold parents. simpl. intros H.
  apply (f_equal (@List.length path)) in H.
  rewrite length_app in H. simpl in H. lia.
Qed.

Lemma filter_all {A : Type} (l : list A) : filter (fun _ => true) l = l.
Proof. induction l; simpl; congruence. Qed.

Lemma find_gitignore_no_paths (w : world) :
  exists g, find_gitignore w (PList []) = Ok g.
Proof.
  unfold find_gitignore, resolved_paths, common_base, path_parents,
    intersection. simpl.
  rewrite filter_all.
  destruct (parents (cwd w) ++ (if is_dir w (cwd w) then [cwd w] else []))%list
    as [|x rest] eqn:E.
  - exfalso. apply app_eq_nil in E as [E1 E2].
    destruct (cwd w) as [|a q] eqn:Ec.
    + simpl in E2. discriminate.
    + now apply parents_nonempty in E1.
  - simpl. eauto.
Qed.

(** ** C3: at least one path *)

Lemma well_typed_list (k : string) (v : pyvalue) :
  well_typed k v -> dict_get k DEFAULTS = Some (PList []) ->
  exists l, v = PList l.
Proof.
  intros (d & Hd & Ht) Hk. rewrite Hk in Hd. inversion Hd; subst.
  destruct v; try discriminate. eauto.
Qed.




(** ** C7: what a returned config holds *)

Lemma resolved_complete (w : world) (ns : namespace)
      (tomlfile : option toml_file) (out : list string) (cfg : dict)
      (k : string) (dflt : pyvalue) :
  run (make_config w ns tomlfile) = (out, Ok cfg) ->
  dict_get k DEFAULTS = Some dflt ->
  exists v, dict_get k cfg = Some v /\ type_of v = type_of dflt.
Proof.
  intros H Hd.
  apply make_config_ok in H as (merged & Hm & Hr & _).
  destruct (@merged_complete w ns tomlfile merged k dflt Hm Hd)
    as (v & Hv & Ht).
  destruct (String.eqb_spec k "exclude") as [->|Hne].
  - inversion Hd; subst.
    destruct (@resolve_exclude_list w merged cfg _ out v Hr Hv Ht) as [l Hl].
    exists (PList l). auto.
  - exists v. split; auto.
    rewrite (@resolve_exclude_other w merged cfg _ out k Hr Hne). exact Hv.
Qed.

(** An exception of [make_config] is [InputError], or comes from reading the
    TOML file or from resolving the exclude patterns. *)
Lemma make_config_raise (w : world) (ns : namespace)
      (tomlfile : option toml_file) (out : list string) (e : exn) :
  run (make_config w ns tomlfile) = (out, Raise e) ->
  (exists msg, e = InputError msg)
  \/ toml_config_of w tomlfile = Raise e
  \/ (exists merged,
        merged_of w ns tomlfile = Ok merged
        /\ resolve_exclude w merged (toml_report w tomlfile merged)
           = (out, Raise e)).
Proof.
  intros E.
  destruct (parse_args_cases ns) as [Ha|[msg Ha]].
  - destruct (load_config w tomlfile) as [loaded|e'] eqn:El.
    + assert (Hm : merged_of w ns tomlfile
                   = Ok (merge_config (snd loaded) (cli_args_of ns))).
      { unfold merged_of. rewrite Ha. simpl. rewrite El. reflexivity. }
      rewrite (@make_config_from_merged w ns tomlfile _ Hm) in E.
      unfold checked in E.
      destruct (resolve_exclude w _ _) as [out' [config|e'']] eqn:Er.
      * left.
        destruct (@merged_complete w ns tomlfile _ "paths" (PList [])
                    Hm eq_refl) as (v & Hv & Ht).
        assert (Hp : dict_get "paths" config = Some v).
        { rewrite <- Hv. eapply resolve_exclude_other; eauto. discriminate. }
        unfold _check_output_config, dict_index in E. rewrite Hp in E.
        simpl in E. destruct (negb (truthy v)); simpl in E;
          inversion E; subst. eauto.
      * right. right. inversion E; subst. eauto.
    + right. left.
      rewrite (@make_config_load_error w ns tomlfile _ _ Ha El) in E.
      inversion E; subst. unfold toml_config_of. now rewrite El.
  - left. rewrite (@make_config_parse_error w ns tomlfile _ Ha) in E.
    inversion E; subst. eauto.
Qed.

(** C7 as stated fails: with [tool = 1] in the TOML document, [make_config]
    neither returns a config nor raises [InputError]; it raises
    [AttributeError]. *)
Lemma not_only_input_error :
  ~ (forall w ns tomlfile,
       (exists out msg,
          run (make_config w ns tomlfile) = (out, Raise (InputError msg)))
       \/ (exists out cfg,
             run (make_config w ns tomlfile) = (out, Ok cfg)
             /\ fully_validated cfg = true)).
Proof.
  intros H.
  destruct (H test_world (vars missing_cli) (Some tool_int_toml))
    as [(out & msg & E)|(out & cfg & E & _)];
    vm_compute in E; discriminate.
Qed.

(** C7, amended. Whatever [make_config] returns is fully validated: the
    config has a value for each of the eight keys of [DEFAULTS], of the type
    of the key's default, and a [paths] list that is not empty.  Every other
    run from a namespace ends in an exception and gives no config at all:
    [InputError] from the checks, or else the exception that reading the
    TOML file or resolving the exclude patterns raised. *)
Theorem returned_config_validated (w : world) (ns : namespace)
        (tomlfile : option toml_file) :
  match run (make_config w ns tomlfile) with
  | (_, Ok cfg) =>
      fully_validated cfg = true
      /\ (forall k dflt, dict_get k DEFAULTS = Some dflt ->
            exists v, dict_get k cfg = Some v /\ type_of v = type_of dflt)
      /\ (exists p ps, dict_get "paths" cfg = Some (PList (p :: ps)))
  | (out, Raise e) =>
      (exists msg, e = InputError msg)
      \/ toml_config_of w tomlfile = Raise e
      \/ (exists merged,
            merged_of w ns tomlfile = Ok merged
            /\ resolve_exclude w merged (toml_report w tomlfile merged)
               = (out, Raise e))
  end.
Proof.
  destruct (run (make_config w ns tomlfile)) as [out [cfg|e]] eqn:E.
  - assert (Hall : forall k dflt, dict_get k DEFAULTS = Some dflt ->
              exists v, dict_get k cfg = Some v /\ type_of v = type_of dflt).
    { intros k dflt. now apply resolved_complete with w ns tomlfile out. }
    assert (Hp : exists p ps, dict_get "paths" cfg = Some (PList (p :: ps))).
    { destruct (@make_config_ok w ns tomlfile out cfg E)
        as (merged & Hm & Hr & Hc).
      destruct (Hall "paths" (PList []) eq_refl) as (v & Hv & Ht).
      rewrite Hv. destruct v as [| | |l| | | |]; try discriminate.
      unfold _check_output_config, dict_index in Hc. rewrite Hv in Hc.
      simpl in Hc. destruct l as [|p ps]; [discriminate|]. eauto. }
    split; [|split]; auto.
    unfold fully_validated. apply andb_true_intro. split.
    + apply forallb_forall. intros [k dflt] Hin. simpl.
      assert (Hd : dict_get k DEFAULTS = Some dflt).
      { simpl in Hin.
        repeat (destruct Hin as [Hin|Hin];
                [inversion Hin; subst; reflexivity|]).
        contradiction. }
      destruct (Hall k dflt Hd) as (v & -> & Ht).
      now apply pytype_eqb_eq.
    + destruct Hp as (p & ps & ->). reflexivity.
  - now apply make_config_raise.
Qed.

(** ** C8: the command line goes first *)

Lemma last_given_NoDup (k : string) (v : pyvalue) (ns : namespace) :
  NoDup (map fst ns) -> In (k, given v) ns -> last_given k ns = Some v.
Proof.
  induction ns as [|[k' a] ns IH]; simpl; [tauto|].
  intros Hnd [H|H]; inversion Hnd as [|? ? Hnin Hnd']; subst.
  - inversion H; subst. rewrite String.eqb_refl.
    rewrite last_given_missing; [reflexivity|].
    intros a Ha. exfalso. apply Hnin.
    change k with (fst (k, a)). now apply in_map.
  - now rewrite (IH Hnd' H).
Qed.

Lemma returned_picked (w : world) (ns : namespace)
      (tomlfile : option toml_file) (toml_config : dict)
      (out : list string) (cfg : dict) (k : string) (v : pyvalue) :
  run (make_config w ns tomlfile) = (out, Ok cfg) ->
  toml_config_of w tomlfile = Ok toml_config ->
  picked k ns toml_config = Some v ->
  (k <> "exclude" -> dict_get k cfg = Some v)
  /\ (k = "exclude" -> truthy v = true ->
      exists l regexes,
        v = PList l
        /\ map_result (fnmatch_to_regex w) l = Ok regexes
        /\ dict_get k cfg = Some (PList regexes)).
Proof.
  intros H Ht Hp.
  apply make_config_ok in H as (merged & Hm & Hr & _).
  destruct (@merged_of_get w ns tomlfile merged k Hm) as (tc & Ht' & Hk).
  rewrite Ht in Ht'. inversion Ht'; subst tc. clear Ht'.
  assert (Hv : dict_get k merged = Some v).
  { rewrite Hk. unfold picked in Hp.
    destruct (last_given k ns); [assumption|]. now rewrite Hp. }
  split.
  - intros Hne. now rewrite (@resolve_exclude_other w merged cfg _ out k Hr Hne).
  - intros -> Htr.
    destruct (@merged_complete w ns tomlfile merged "paths" (PList [])
                Hm eq_refl) as (paths & Hpaths & _).
    rewrite (@resolve_exclude_eq w merged _ v paths Hv Hpaths) in Hr.
    rewrite Htr in Hr.
    destruct (@merged_well_typed w ns tomlfile merged "exclude" v Hm Hv)
      as (d & Hd & Hty).
    inversion Hd; subst d. destruct v as [| | |l| | | |]; try discriminate.
    simpl in Hr.
    destruct (map_result (fnmatch_to_regex w) l) as [regexes|] eqn:Em;
      inversion Hr; subst.
    exists l, regexes. split; [reflexivity|]. split; [exact Em|].
    apply dict_get_set_same.
Qed.

(** C8. In every config that [make_config] returns, an option given on the
    command line has its command-line value, whatever the TOML table says,
    and an option that the command line leaves at the sentinel [missing]
    has its TOML value when the table has one.  The [exclude] patterns,
    chosen the same way, are returned translated to regexes. *)
Theorem cli_over_toml (w : world) (ns : namespace)
        (tomlfile : option toml_file) (toml_config : dict)
        (out : list string) (cfg : dict) :
  run (make_config w ns tomlfile) = (out, Ok cfg) ->
  toml_config_of w tomlfile = Ok toml_config ->
  NoDup (map fst ns) ->
  (forall k v, k <> "exclude" ->
     In (k, given v) ns -> dict_get k cfg = Some v)
  /\ (forall k v, k <> "exclude" ->
        (forall a, In (k, a) ns -> a = missing) ->
        dict_get k toml_config = Some v -> dict_get k cfg = Some v)
  /\ (forall l, l <> [] ->
        In ("exclude", given (PList l)) ns ->
        exists regexes,
          map_result (fnmatch_to_regex w) l = Ok regexes
          /\ dict_get "exclude" cfg = Some (PList regexes))
  /\ (forall l, l <> [] ->
        (forall a, In ("exclude", a) ns -> a = missing) ->
        dict_get "exclude" toml_config = Some (PList l) ->
        exists regexes,
          map_result (fnmatch_to_regex w) l = Ok regexes
          /\ dict_get "exclude" cfg = Some (PList regexes)).
Proof.
  intros H Ht Hnd.
  assert (Hcli : forall k v, In (k, given v) ns ->
            picked k ns toml_config = Some v).
  { intros k v Hin. unfold picked. now rewrite (@last_given_NoDup k v ns Hnd Hin). }
  assert (Htoml : forall k v, (forall a, In (k, a) ns -> a = missing) ->
            dict_get k toml_config = Some v ->
            picked k ns toml_config = Some v).
  { intros k v Hmiss Hv. unfold picked. now rewrite last_given_missing. }
  assert (Hex : forall l, l <> [] ->
            picked "exclude" ns toml_config = Some (PList l) ->
            exists regexes,
              map_result (fnmatch_to_regex w) l = Ok regexes
              /\ dict_get "exclude" cfg = Some (PList regexes)).
  { intros l Hl Hp.
    destruct (@returned_picked w ns tomlfile toml_config out cfg
                "exclude" (PList l) H Ht Hp) as [_ Hx].
    destruct Hx as (l' & regexes & El & Hm & Hg); auto.
    - destruct l; [contradiction | reflexivity].
    - inversion El; subst. eauto. }
  split; [|split; [|split]].
  - intros k v Hne Hin.
    now apply (@returned_picked w ns tomlfile toml_config out cfg k v H Ht
                 (Hcli k v Hin)).
  - intros k v Hne Hmiss Hv.
    now apply (@returned_picked w ns tomlfile toml_config out cfg k v H Ht
                 (Htoml k v Hmiss Hv)).
  - intros l Hl Hin. apply Hex; auto.
  - intros l Hl Hmiss Hv. apply Hex; auto.
Qed.

Lemma vars_NoDup (c : cli) : NoDup (map fst (vars c)).
Proof.
  simpl. repeat constructor; simpl; intuition discriminate.
Qed.

(** The tests [test_config_merging] and [test_config_merging_missing]. *)
Lemma cli_over_toml_witness :
  (exists out cfg,
     run (make_config test_world (vars merging_cli) (Some merging_toml))
     = (out, Ok cfg)
     /\ dict_get "min_confidence" cfg = Some (PInt 20)
     /\ dict_get "paths" cfg = Some (PList [PStr "cli_path"])
     /\ dict_get "verbose" cfg = Some (PBool true)
     /\ exists regexes,
          map_result test_fnmatch [PStr "cli_exclude"] = Ok regexes
          /\ dict_get "exclude" cfg = Some (PList regexes))
  /\ (exists out cfg,
        run (make_config test_world (vars missing_cli) (Some missing_toml))
        = (out, Ok cfg)
        /\ dict_get "verbose" cfg = Some (PBool true)
        /\ dict_get "ignore_names" cfg = Some (PList [PStr "name1"])).
Proof.
  split.
  - computed (run (make_config test_world (vars merging_cli)
                     (Some merging_toml))) E.
    destruct (@cli_over_toml test_world (vars merging_cli)
                (Some merging_toml) _ _ _ E eq_refl (vars_NoDup merging_cli))
      as (H1 & _ & H3 & _).
    eexists. eexists. split; [exact E|].
    split; [|split; [|split]].
    + apply H1; [discriminate|]. simpl. tauto.
    + apply H1; [discriminate|]. simpl. tauto.
    + apply H1; [discriminate|]. simpl. tauto.
    + apply (H3 [PStr "cli_exclude"]); [discriminate|]. simpl. tauto.
  - computed (run (make_config test_world (vars missing_cli)
                     (Some missing_toml))) E.
    destruct (@cli_over_toml test_world (vars missing_cli)
                (Some missing_toml) _ _ _ E eq_refl (vars_NoDup missing_cli))
      as (_ & H2 & _ & _).
    eexists. eexists. split; [exact E|]. split.
    + apply H2; [discriminate| |reflexivity].
      intros a Ha. simpl in Ha.
      repeat (destruct Ha as [Ha|Ha]; [inversion Ha; reflexivity|]).
      contradiction.
    + apply H2; [discriminate| |reflexivity].
      intros a Ha. simpl in Ha.
      repeat (destruct Ha as [Ha|Ha]; [inversion Ha; reflexivity|]).
      contradiction.
Defined.

(** ** C6: defaults *)

(** C6 as stated fails: with only a path on the command line, in the tree
    whose root has a [.gitignore], the [exclude] of the returned config is
    not its default. *)
Lemma exclude_default_replaced :
  ~ (forall w ns tomlfile toml_config out cfg k dflt,
       run (make_config w ns tomlfile) = (out, Ok cfg) ->
       toml_config_of w tomlfile = Ok toml_config ->
       unset k ns toml_config ->
       dict_get k DEFAULTS = Some dflt ->
       dict_get k cfg = Some dflt).
Proof.
  intros H.
  computed (run (make_config test_world (vars missing_cli) None)) E.
  specialize (H test_world (vars missing_cli) None [] _ _
                "exclude" (PList []) E eq_refl).
  assert (Hu : unset "exclude" (vars missing_cli) []).
  { split; [|reflexivity]. intros a Ha. simpl in Ha.
    repeat (destruct Ha as [Ha|Ha]; [inversion Ha; reflexivity|]).
    contradiction. }
  specialize (H Hu eq_refl). vm_compute in H. discriminate.
Qed.

Lemma unset_picked (k : string) (ns : namespace) (toml_config : dict) :
  unset k ns toml_config -> picked k ns toml_config = None.
Proof.
  intros [Hm Ht]. unfold picked. now rewrite last_given_missing.
Qed.

(** C6, amended. In every config that [make_config] returns, an option
    other than [exclude] that neither the command line nor the TOML table
    gives has its default of [DEFAULTS]; so [min_confidence] is then 0.  The
    merged configuration has the default of every such option, [exclude]
    included; in the returned config the default of [exclude], an empty
    list, stays when [find_gitignore] finds no [.gitignore], and is replaced
    by the regexes of the [.gitignore] it finds. *)
Theorem defaults_filled (w : world) (ns : namespace)
        (tomlfile : option toml_file) (toml_config : dict)
        (out : list string) (cfg : dict) :
  run (make_config w ns tomlfile) = (out, Ok cfg) ->
  toml_config_of w tomlfile = Ok toml_config ->
  (forall k dflt, k <> "exclude" ->
     unset k ns toml_config -> dict_get k DEFAULTS = Some dflt ->
     dict_get k cfg = Some dflt)
  /\ (exists merged,
        merged_of w ns tomlfile = Ok merged
        /\ forall k dflt,
             unset k ns toml_config -> dict_get k DEFAULTS = Some dflt ->
             dict_get k merged = Some dflt)
  /\ (unset "min_confidence" ns toml_config ->
      dict_get "min_confidence" cfg = Some (PInt 0))
  /\ (unset "exclude" ns toml_config ->
      exists paths,
        dict_get "paths" cfg = Some paths
        /\ ((find_gitignore w paths = Ok None
             /\ dict_get "exclude" cfg = Some (PList []))
            \/ (exists g,
                  find_gitignore w paths = Ok (Some g)
                  /\ dict_get "exclude" cfg
                     = Some (PList (_parse_gitignore_excludes w g))))).
Proof.
  intros H Ht.
  pose proof (@make_config_ok w ns tomlfile out cfg H)
    as (merged & Hm & Hr & _).
  assert (Hdef : forall k dflt, unset k ns toml_config ->
            dict_get k DEFAULTS = Some dflt -> dict_get k merged = Some dflt).
  { intros k dflt Hu Hd.
    destruct (@merged_of_get w ns tomlfile merged k Hm) as (tc & Ht' & Hk).
    rewrite Ht in Ht'. inversion Ht'; subst tc.
    destruct Hu as [Hmiss Hnone].
    now rewrite Hk, last_given_missing, Hnone. }
  assert (Hother : forall k dflt, k <> "exclude" ->
            unset k ns toml_config -> dict_get k DEFAULTS = Some dflt ->
            dict_get k cfg = Some dflt).
  { intros k dflt Hne Hu Hd.
    rewrite (@resolve_exclude_other w merged cfg _ out k Hr Hne). auto. }
  split; [exact Hother|]. split; [exists merged; auto|]. split.
  - intros Hu. apply Hother; [discriminate | assumption | reflexivity].
  - intros Hu.
    destruct (@merged_complete w ns tomlfile merged "paths" (PList [])
                Hm eq_refl) as (paths & Hp & _).
    exists paths. split.
    + rewrite (@resolve_exclude_other w merged cfg _ out "paths" Hr);
        [assumption | discriminate].
    + pose proof (Hdef "exclude" (PList []) Hu eq_refl) as He.
      rewrite (@resolve_exclude_eq w merged _ (PList []) paths He Hp) in Hr.
      simpl in Hr.
      destruct (find_gitignore w paths) as [[g|]|]; inversion Hr; subst.
      * right. exists g. split; [reflexivity|]. apply dict_get_set_same.
      * left. split; [reflexivity | assumption].
Qed.

(** Only paths on the command line, with and without a [.gitignore] in the
    tree. *)
Lemma defaults_filled_witness :
  (exists out cfg,
     run (make_config test_world (vars missing_cli) None) = (out, Ok cfg)
     /\ dict_get "min_confidence" cfg = Some (PInt 0)
     /\ dict_get "verbose" cfg = Some (PBool false))
  /\ (exists out cfg,
        run (make_config bare_world (vars missing_cli) None) = (out, Ok cfg)
        /\ dict_get "min_confidence" cfg = Some (PInt 0)).
Proof.
  assert (Hu : forall k, k <> "paths" -> unset k (vars missing_cli) []).
  { intros k Hk. split; [|reflexivity]. intros a Ha. simpl in Ha.
    repeat (destruct Ha as [Ha|Ha];
            [inversion Ha; subst; try reflexivity; now contradiction Hk|]).
    contradiction. }
  split.
  - computed (run (make_config test_world (vars missing_cli) None)) E.
    destruct (@defaults_filled test_world (vars missing_cli) None [] _ _
                E eq_refl) as (H1 & _ & H2 & _).
    eexists. eexists. split; [exact E|]. split.
    + apply H2. apply Hu. discriminate.
    + apply H1; [discriminate | apply Hu; discriminate | reflexivity].
  - computed (run (make_config bare_world (vars missing_cli) None)) E.
    destruct (@defaults_filled bare_world (vars missing_cli) None [] _ _
                E eq_refl) as (_ & _ & H2 & _).
    eexists. eexists. split; [exact E|].
    apply H2. apply Hu. discriminate.
Defined.

(** ** Prefixes and ancestors *)

Lemma path_eqb_eq (p q : path) : path_eqb p q = true <-> p = q.
Proof.
  revert q. induction p as [|a p IH]; intros [|b q]; simpl;
    split; intros H; try reflexivity; try discriminate.
  - apply andb_prop in H as [H1 H2]. apply String.eqb_eq in H1.
    apply IH in H2. congruence.
  - inversion H; subst. rewrite String.eqb_refl. simpl. now apply IH.
Qed.

Lemma existsb_path_eqb (p : path) (l : list path) :
  existsb (path_eqb p) l = true <-> In p l.
Proof.
  rewrite existsb_exists. split.
  - intros (x & Hx & He). apply path_eqb_eq in He. now subst.
  - intros H. exists p. split; auto. now apply path_eqb_eq.
Qed.

Lemma In_ancestors (d p : path) : In d (ancestors p) <-> is_ancestor d p.
Proof.
  revert d. induction p as [|a p IH]; intros d; simpl.
  - split; [tauto|]. intros (b & s & H). destruct d; discriminate.
  - split.
    + intros [<-|H].
      * exists a, p. reflexivity.
      * apply in_map_iff in H as (d' & <- & Hd').
        apply IH in Hd' as (b & s & ->). exists b, s. reflexivity.
    + intros (b & s & H). destruct d as [|c d].
      * now left.
      * right. simpl in H. inversion H; subst.
        apply in_map. apply IH. exists b, s. reflexivity.
Qed.

Lemma In_parents (d p : path) : In d (parents p) <-> is_ancestor d p.
Proof. unfold parents. rewrite <- in_rev. apply In_ancestors. Qed.

Lemma ancestor_prefix (d p : path) : is_ancestor d p -> is_prefix d p.
Proof. intros (a & s & ->). now exists (a :: s). Qed.

Lemma ancestor_length (d p : path) :
  is_ancestor d p -> List.length d < List.length p.
Proof. intros (a & s & ->). rewrite length_app. simpl. lia. Qed.

Lemma prefix_length (d p : path) : is_prefix d p -> List.length d <= List.length p.
Proof. intros (s & ->). rewrite length_app. lia. Qed.

Lemma prefix_cases (d p : path) :
  is_prefix d p <-> d = p \/ is_ancestor d p.
Proof.
  split.
  - intros ([|a s] & ->).
    + left. now rewrite app_nil_r.
    + right. now exists a, s.
  - intros [->|H].
    + exists []. now rewrite app_nil_r.
    + now apply ancestor_prefix.
Qed.

Lemma prefix_trans (a b c : path) :
  is_prefix a b -> is_prefix b c -> is_prefix a c.
Proof.
  intros (s & ->) (t & ->). exists (s ++ t)%list. now rewrite app_assoc.
Qed.

(** Two prefixes of one path are prefixes of one another. *)
Lemma prefix_comparable (a b p : path) :
  is_prefix a p -> is_prefix b p -> is_prefix a b \/ is_prefix b a.
Proof.
  revert a b. induction p as [|x p IH]; intros a b (s & Hs) (t & Ht).
  - destruct a; [|discriminate]. left. now exists b.
  - destruct a as [|y a]; [left; now exists b|].
    destruct b as [|z b]; [right; now exists (y :: a)|].
    simpl in Hs, Ht. inversion Hs; inversion Ht; subst.
    destruct (IH a b) as [(u & ->)|(u & ->)].
    + now exists s.
    + now exists t.
    + left. now exists u.
    + right. now exists u.
Qed.

Lemma prefix_antisym (a b : path) :
  is_prefix a b -> is_prefix b a -> a = b.
Proof.
  intros (s & Hs) Hb. apply prefix_length in Hb.
  subst b. rewrite length_app in Hb.
  destruct s; [now rewrite app_nil_r | simpl in Hb; lia].
Qed.

(** ** The order of parts on prefixes *)

Lemma string_compare_refl (s : string) : String.compare s s = Eq.
Proof.
  pose proof (String.compare_antisym s s) as H.
  destruct (String.compare s s); simpl in H; congruence.
Qed.

Lemma tuple_compare_app (d s : list string) :
  tuple_compare d (d ++ s)
  = match s with [] => Eq | _ :: _ => Lt end.
Proof.
  induction d as [|x d IH]; simpl.
  - destruct s; reflexivity.
  - now rewrite string_compare_refl.
Qed.

Lemma tuple_compare_app_gt (d s : list string) (a : string) :
  tuple_compare (d ++ a :: s) d = Gt.
Proof.
  induction d as [|x d IH]; simpl; [reflexivity|].
  now rewrite string_compare_refl.
Qed.

(** On a path and its prefix, the order of [parts] is the order of the
    lengths. *)
Lemma parts_compare_prefix (d e : path) :
  is_prefix d e ->
  tuple_compare (parts e) (parts d) = Gt <-> List.length d < List.length e.
Proof.
  intros (s & ->). unfold parts. rewrite length_app.
  destruct s as [|a s].
  - rewrite app_nil_r.
    pose proof (tuple_compare_app ("/" :: d) []) as H.
    rewrite app_nil_r in H. rewrite H. simpl.
    split; [discriminate | lia].
  - change ("/" :: (d ++ a :: s))%list with (("/" :: d) ++ a :: s)%list.
    rewrite tuple_compare_app_gt. simpl. split; [lia | reflexivity].
Qed.

Lemma parts_compare_prefix_not_gt (d e : path) :
  is_prefix d e -> tuple_compare (parts d) (parts e) <> Gt.
Proof.
  intros (s & ->). unfold parts.
  change ("/" :: (d ++ s))%list with (("/" :: d) ++ s)%list.
  rewrite tuple_compare_app. destruct s; discriminate.
Qed.

Lemma prefix_length_eq (d e : path) :
  is_prefix d e -> List.length e <= List.length d -> d = e.
Proof.
  intros (s & ->) H. rewrite length_app in H.
  destruct s; [now rewrite app_nil_r | simpl in H; lia].
Qed.

Lemma prefix_refl (d : path) : is_prefix d d.
Proof. exists []. now rewrite app_nil_r. Qed.

(** Among prefixes of one path, [max] by parts returns the longest. *)
Lemma max_from_chain (p0 : path) (items : list path) :
  forall best,
    (forall x, In x (best :: items) -> is_prefix x p0) ->
    In (max_from best items) (best :: items)
    /\ forall x, In x (best :: items) -> is_prefix x (max_from best items).
Proof.
  induction items as [|x rest IH]; intros best Hch.
  - simpl. split; [now left|]. intros y [<-|[]]. apply prefix_refl.
  - assert (Hx : is_prefix x p0) by (apply Hch; simpl; auto).
    assert (Hb : is_prefix best p0) by (apply Hch; simpl; auto).
    change (max_from best (x :: rest))
      with (match tuple_compare (parts x) (parts best) with
            | Gt => max_from x rest
            | _ => max_from best rest
            end).
    destruct (tuple_compare (parts x) (parts best)) eqn:C.
    + assert (Hxb : is_prefix x best).
      { destruct (prefix_comparable Hx Hb) as [H|H]; [assumption|].
        assert (E : best = x).
        { apply prefix_length_eq; [assumption|].
          destruct (Nat.le_gt_cases (List.length x) (List.length best))
            as [Hle|Hlt]; [assumption|].
          apply (parts_compare_prefix H) in Hlt. congruence. }
        subst. apply prefix_refl. }
      destruct (IH best) as [Hin Hall].
      { intros y [<-|Hy]; apply Hch; simpl; auto. }
      split.
      * destruct Hin as [Hin|Hin]; [left; exact Hin | right; right; exact Hin].
      * intros y [<-|[<-|Hy]].
        -- apply Hall. now left.
        -- apply prefix_trans with best; [assumption|]. apply Hall. now left.
        -- apply Hall. now right.
    + assert (Hxb : is_prefix x best).
      { destruct (prefix_comparable Hx Hb) as [H|H]; [assumption|].
        assert (E : best = x).
        { apply prefix_length_eq; [assumption|].
          destruct (Nat.le_gt_cases (List.length x) (List.length best))
            as [Hle|Hlt]; [assumption|].
          apply (parts_compare_prefix H) in Hlt. congruence. }
        subst. apply prefix_refl. }
      destruct (IH best) as [Hin Hall].
      { intros y [<-|Hy]; apply Hch; simpl; auto. }
      split.
      * destruct Hin as [Hin|Hin]; [left; exact Hin | right; right; exact Hin].
      * intros y [<-|[<-|Hy]].
        -- apply Hall. now left.
        -- apply prefix_trans with best; [assumption|]. apply Hall. now left.
        -- apply Hall. now right.
    + assert (Hbx : is_prefix best x).
      { destruct (prefix_comparable Hx Hb) as [H|H]; [|assumption].
        exfalso. now apply (parts_compare_prefix_not_gt H). }
      destruct (IH x) as [Hin Hall].
      { intros y Hy. apply Hch. now right. }
      split.
      * now right.
      * intros y [<-|Hy].
        -- apply prefix_trans with x; [assumption|]. apply Hall. now left.
        -- now apply Hall.
Qed.

(** ** The common base *)

Lemma In_candidates (w : world) (d p : path) :
  In d (parents p ++ (if is_dir w p then [p] else []))%list <-> covers w d p.
Proof.
  rewrite in_app_iff, In_parents. unfold covers.
  destruct (is_dir w p); simpl; intuition (try congruence; try discriminate).
Qed.

Lemma covers_prefix (w : world) (d p : path) : covers w d p -> is_prefix d p.
Proof.
  intros [H|[-> _]]; [now apply ancestor_prefix | apply prefix_refl].
Qed.

Lemma covers_root (w : world) (p : path) : covers w [] p.
Proof.
  destruct p as [|a p].
  - right. auto.
  - left. now exists a, p.
Qed.

Lemma In_common (w : world) (p0 : path) (rest : list path) (d : path) :
  In d (filter (fun p => forallb (existsb (path_eqb p))
                                 (path_parents w rest))
               (parents p0 ++ (if is_dir w p0 then [p0] else []))%list)
  <-> forall p, In p (p0 :: rest) -> covers w d p.
Proof.
  rewrite filter_In, In_candidates, forallb_forall. split.
  - intros [H0 Hall] p [<-|Hp]; [assumption|].
    apply In_candidates. apply existsb_path_eqb. apply Hall.
    unfold path_parents.
    apply in_map with
      (f := fun p => (parents p ++ (if is_dir w p then [p] else []))%list).
    exact Hp.
  - intros H. split; [apply H; now left|].
    intros s Hs. unfold path_parents in Hs.
    apply in_map_iff in Hs as (p & <- & Hp).
    apply existsb_path_eqb. apply In_candidates. apply H. now right.
Qed.

(** For at least one path, the common base exists and is the deepest
    common "parent". *)
Lemma common_base_deepest (w : world) (p0 : path) (rest : list path) :
  exists b, common_base w (p0 :: rest) = Ok b
            /\ deepest_common w (p0 :: rest) b.
Proof.
  unfold common_base. simpl.
  set (common := filter _ _).
  assert (Hin : forall d, In d common
                          <-> forall p, In p (p0 :: rest) -> covers w d p).
  { intros d. apply In_common. }
  destruct common as [|x items] eqn:E.
  - exfalso. apply (proj2 (Hin [])). intros p _. apply covers_root.
  - simpl. exists (max_from x items). split; [reflexivity|].
    destruct (@max_from_chain p0 items x) as [Hr Hall].
    { intros y Hy. apply covers_prefix with w. apply (proj1 (Hin y) Hy).
      now left. }
    split.
    + apply Hin. exact Hr.
    + intros d Hd. apply Hall. apply Hin. exact Hd.
Qed.

(** ** The closest .gitignore *)

Lemma ancestors_snoc (p : path) (a : string) :
  ancestors (p ++ [a])%list = (ancestors p ++ [p])%list.
Proof.
  induction p as [|x p IH]; simpl; [reflexivity|].
  now rewrite IH, map_app.
Qed.

Lemma parents_snoc (p : path) (a : string) :
  parents (p ++ [a])%list = p :: parents p.
Proof.
  unfold parents. rewrite ancestors_snoc, rev_app_distr. reflexivity.
Qed.

Lemma prefix_snoc (d p : path) (a : string) :
  is_prefix d (p ++ [a])%list -> d = (p ++ [a])%list \/ is_prefix d p.
Proof.
  intros (s & H). destruct s as [|x s'] using rev_ind.
  - left. now rewrite app_nil_r in H.
  - right. rewrite app_assoc in H. apply app_inj_tail in H as [H _].
    now exists s'.
Qed.

Lemma first_gitignore_closest (w : world) (b : path) :
  match first_gitignore w (b :: parents b) with
  | Some g => exists d, g = joinpath d ".gitignore" /\ closest_gitignore w b d
  | None => no_gitignore_above w b
  end.
Proof.
  induction b as [|a p IH] using rev_ind.
  - simpl. destruct (is_file w (joinpath [] ".gitignore")) eqn:E.
    + exists []. split; [reflexivity|]. split; [apply prefix_refl|].
      split; [assumption|].
      intros d' Hd' Hlt. apply prefix_length in Hd'. simpl in *. lia.
    + intros d Hd. apply prefix_length in Hd.
      destruct d; [assumption | simpl in Hd; lia].
  - rewrite parents_snoc.
    change (first_gitignore w ((p ++ [a])%list :: p :: parents p))
      with (if is_file w (joinpath (p ++ [a])%list ".gitignore")
            then Some (joinpath (p ++ [a])%list ".gitignore")
            else first_gitignore w (p :: parents p)).
    destruct (is_file w (joinpath (p ++ [a])%list ".gitignore")) eqn:E.
    + exists (p ++ [a])%list. split; [reflexivity|].
      split; [apply prefix_refl|]. split; [assumption|].
      intros d' Hd' Hlt. apply prefix_length in Hd'. lia.
    + unfold path in *.
      revert IH. destruct (first_gitignore w (p :: parents p)) as [g|];
        intros IH.
      * unfold closest_gitignore in IH. destruct IH as (d & -> & Hp & Hf & Hc).
        exists d. split; [reflexivity|]. split.
        { apply prefix_trans with p; [assumption | now exists [a]]. }
        split; [assumption|].
        intros d' Hd' Hlt. apply prefix_snoc in Hd' as [->|Hd']; auto.
      * intros d Hd. apply prefix_snoc in Hd as [->|Hd]; auto.
Qed.

Lemma find_gitignore_spec (w : world) (paths : pyvalue) (g : option path) :
  find_gitignore w paths = Ok g ->
  exists ps b,
    resolved_paths w paths = Ok ps
    /\ common_base w ps = Ok b
    /\ deepest_common w ps b
    /\ match g with
       | Some gp =>
           exists d, gp = joinpath d ".gitignore" /\ closest_gitignore w b d
       | None => no_gitignore_above w b
       end.
Proof.
  unfold find_gitignore.
  destruct (resolved_paths w paths) as [ps|]; simpl; [|discriminate].
  destruct ps as [|p0 rest]; [discriminate|].
  destruct (common_base_deepest w p0 rest) as (b & Hb & Hd).
  rewrite Hb. simpl. intros H. inversion H; subst.
  exists (p0 :: rest), b. repeat split; try assumption; try apply Hd.
  apply (first_gitignore_closest w b).
Qed.

Lemma map_result_resolve (w : world) (l : list string) :
  map_result (Path_resolve w) (map PStr l) = Ok (map (resolve w) l).
Proof.
  induction l as [|s l IH]; simpl; [reflexivity|]. now rewrite IH.
Qed.

(** On a list of strings [find_gitignore] returns. *)
Lemma find_gitignore_strings (w : world) (l : list string) :
  exists g, find_gitignore w (PList (map PStr l)) = Ok g.
Proof.
  destruct l as [|s l].
  - apply find_gitignore_no_paths.
  - unfold find_gitignore, resolved_paths.
    change (truthy (PList (map PStr (s :: l)))) with true. simpl negb.
    cbv iota. unfold py_iter.
    change (map_result (Path_resolve w) (map PStr (s :: l)))
      with (map_result (Path_resolve w) (map PStr (s :: l))).
    assert (E : (items <- Ok (map PStr (s :: l)) ;;
                 map_result (Path_resolve w) items)
                = Ok (resolve w s :: map (resolve w) l)).
    { simpl bind. apply (map_result_resolve w (s :: l)). }
    rewrite E. simpl bind.
    destruct (common_base_deepest w (resolve w s) (map (resolve w) l))
      as (b & Hb & _).
    rewrite Hb. simpl. eauto.
Qed.

(** ** Deduplication *)

Lemma regex_eqb_eq (a b : option string) : regex_eqb a b = true <-> a = b.
Proof.
  destruct a as [x|], b as [y|]; simpl; split; intros H;
    try reflexivity; try discriminate.
  - apply String.eqb_eq in H. now subst.
  - inversion H. apply String.eqb_refl.
Qed.

Lemma existsb_regex_eqb (x : option string) (l : list (option string)) :
  existsb (regex_eqb x) l = true <-> In x l.
Proof.
  rewrite existsb_exists. split.
  - intros (y & Hy & He). apply regex_eqb_eq in He. now subst.
  - intros H. exists x. split; auto. now apply regex_eqb_eq.
Qed.

Lemma In_dedup (x : option string) (l : list (option string)) :
  In x (dedup l) <-> In x l.
Proof.
  induction l as [|y l IH]; simpl; [tauto|].
  destruct (existsb (regex_eqb y) l) eqn:E.
  - apply existsb_regex_eqb in E. rewrite IH. intuition congruence.
  - simpl. rewrite IH. tauto.
Qed.

Lemma NoDup_dedup (l : list (option string)) : NoDup (dedup l).
Proof.
  induction l as [|y l IH]; simpl; [constructor|].
  destruct (existsb (regex_eqb y) l) eqn:E; [assumption|].
  constructor; [|assumption].
  rewrite In_dedup, <- existsb_regex_eqb. congruence.
Qed.

(** ** C9: the .gitignore fallback *)

Lemma map_result_resolve_inv (w : world) (items : list pyvalue)
      (ps : list path) :
  map_result (Path_resolve w) items = Ok ps ->
  exists l, items = map PStr l /\ ps = map (resolve w) l.
Proof.
  revert ps. induction items as [|v items IH]; simpl; intros ps H.
  - inversion H. exists []. auto.
  - destruct v; simpl in H; try discriminate.
    destruct (map_result (Path_resolve w) items) as [qs|]; simpl in H;
      [|discriminate].
    inversion H; subst. destruct (IH qs eq_refl) as (l & -> & ->).
    exists (s :: l). auto.
Qed.

(** With explicit exclude patterns the file system is not looked at: the
    result is the same in every world with the same pattern translation. *)
Lemma resolve_exclude_explicit (w w' : world) (config : dict)
      (out : list string) (exclude : pyvalue) :
  dict_get "exclude" config = Some exclude -> truthy exclude = true ->
  fnmatch_to_regex w' = fnmatch_to_regex w ->
  resolve_exclude w' config out = resolve_exclude w config out.
Proof.
  intros He Ht Hf. unfold resolve_exclude, io_bind, lift, dict_index.
  rewrite He, Ht, Hf. reflexivity.
Qed.

(** C9. In a run of [make_config] that returns: when the merged [exclude]
    list is empty, the given paths are resolved, their common base is the
    deepest directory among the parents of all of them, and the returned
    [exclude] holds the regexes, without duplicates, of the patterns of
    the [.gitignore] of the closest directory at or above that base; if no
    such directory has a [.gitignore], [exclude] stays empty and a warning
    is printed.  When the merged [exclude] list is not empty, the returned
    [exclude] is the translation of its patterns and no [.gitignore] is
    consulted: the file system does not matter. *)
Theorem gitignore_fallback (w : world) (ns : namespace)
        (tomlfile : option toml_file) (out : list string) (cfg merged : dict)
        (exclude paths : pyvalue) :
  run (make_config w ns tomlfile) = (out, Ok cfg) ->
  merged_of w ns tomlfile = Ok merged ->
  dict_get "exclude" merged = Some exclude ->
  dict_get "paths" merged = Some paths ->
  (truthy exclude = false ->
   from_gitignore w tomlfile merged paths out cfg)
  /\ (truthy exclude = true ->
      from_patterns w tomlfile merged exclude out cfg).
Proof.
  intros H Hm He Hp.
  pose proof (@make_config_ok w ns tomlfile out cfg H)
    as (merged' & Hm' & Hr & Hc).
  rewrite Hm in Hm'. inversion Hm'; subst merged'. clear Hm'.
  destruct (@merged_well_typed w ns tomlfile merged "exclude" exclude Hm He)
    as (d0 & Hd0 & Hty).
  inversion Hd0; subst d0. clear Hd0.
  destruct exclude as [| | |lx| | | |]; try discriminate. clear Hty.
  rewrite (@resolve_exclude_eq w merged _ (PList lx) paths He Hp) in Hr.
  unfold from_gitignore, from_patterns. split.
  - intros Hfalse. rewrite Hfalse in Hr.
    destruct lx; [|discriminate].
    destruct (find_gitignore w paths) as [g|] eqn:Eg; [|inversion Hr].
    destruct (find_gitignore_spec _ _ Eg) as (ps & b & Hps & Hb & Hdeep & Hg).
    assert (Hpaths : dict_get "paths" cfg = Some paths).
    { destruct g; inversion Hr; subst; auto.
      rewrite dict_get_set_other; [assumption | discriminate]. }
    assert (Htruthy : truthy paths = true).
    { unfold _check_output_config, dict_index in Hc. rewrite Hpaths in Hc.
      simpl in Hc. destruct (truthy paths); [reflexivity | discriminate]. }
    destruct (@merged_well_typed w ns tomlfile merged "paths" paths Hm Hp)
      as (d1 & Hd1 & Hty1).
    inversion Hd1; subst d1. clear Hd1.
    destruct paths as [| | |lp| | | |]; try discriminate.
    unfold resolved_paths in Hps. rewrite Htruthy in Hps. simpl in Hps.
    destruct (map_result_resolve_inv _ _ Hps) as (l & -> & ->).
    exists l, (map (resolve w) l), b.
    split; [reflexivity|]. split; [reflexivity|]. split; [assumption|].
    split; [assumption|].
    destruct g as [gp|].
    + left. destruct Hg as (d & -> & Hclose).
      exists d, (dedup (gitwildmatch w (joinpath d ".gitignore"))).
      inversion Hr; subst.
      split; [assumption|]. split; [reflexivity|].
      split; [apply dict_get_set_same|].
      split; [apply NoDup_dedup|].
      split; [intros x; apply In_dedup | reflexivity].
    + right. inversion Hr; subst. auto.
  - intros Htrue. rewrite Htrue in Hr. simpl in Hr. split.
    + destruct (map_result (fnmatch_to_regex w) lx) as [regexes|] eqn:Em;
        inversion Hr; subst.
      exists lx, regexes. split; [reflexivity|]. split; [exact Em|].
      split; [apply dict_get_set_same | reflexivity].
    + intros w' o Hf. now apply resolve_exclude_explicit with (PList lx).
Qed.

(** A path on the command line only, in the tree with a [.gitignore] at the
    project root and in the tree without one; and the explicit patterns of
    the test [test_config_merging]. *)
Lemma gitignore_fallback_witness :
  (exists out cfg merged,
     run (make_config test_world (vars missing_cli) None) = (out, Ok cfg)
     /\ from_gitignore test_world None merged (PList [PStr "cli_path"])
                       out cfg
     /\ exists l, dict_get "exclude" cfg = Some (PList l)
                  /\ List.length l = 3)
  /\ (exists out cfg merged,
        run (make_config bare_world (vars missing_cli) None) = (out, Ok cfg)
        /\ from_gitignore bare_world None merged (PList [PStr "cli_path"])
                          out cfg
        /\ out = [no_gitignore_warning])
  /\ (exists out cfg merged,
        run (make_config test_world (vars merging_cli) (Some merging_toml))
        = (out, Ok cfg)
        /\ from_patterns test_world (Some merging_toml) merged
                         (PList [PStr "cli_exclude"]) out cfg).
Proof.
  split; [|split].
  - computed (run (make_config test_world (vars missing_cli) None)) E.
    computed (merged_of test_world (vars missing_cli) None) Em.
    destruct (@gitignore_fallback test_world (vars missing_cli) None _ _ _
                (PList []) (PList [PStr "cli_path"]) E Em eq_refl eq_refl)
      as [H1 _].
    eexists. eexists. eexists. split; [exact E|].
    split; [apply H1; reflexivity|].
    eexists. split; reflexivity.
  - computed (run (make_config bare_world (vars missing_cli) None)) E.
    computed (merged_of bare_world (vars missing_cli) None) Em.
    destruct (@gitignore_fallback bare_world (vars missing_cli) None _ _ _
                (PList []) (PList [PStr "cli_path"]) E Em eq_refl eq_refl)
      as [H1 _].
    eexists. eexists. eexists. split; [exact E|].
    split; [apply H1; reflexivity | reflexivity].
  - computed (run (make_config test_world (vars merging_cli)
                     (Some merging_toml))) E.
    computed (merged_of test_world (vars merging_cli) (Some merging_toml)) Em.
    destruct (@gitignore_fallback test_world (vars merging_cli)
                (Some merging_toml) _ _ _
                (PList [PStr "cli_exclude"]) (PList [PStr "cli_path"])
                E Em eq_refl eq_refl) as [_ H2].
    eexists. eexists. eexists. split; [exact E|].
    apply H2. reflexivity.
Defined.

(** ** C4: the range of min_confidence *)

(** The namespaces of the parser pass the input check. *)
Lemma parse_args_vars (c : cli) :
  _parse_args (vars c) = Ok (cli_args_of (vars c)).
Proof.
  destruct c as [[?|] [?|] [?|] [?|] [|] [?|] [|] [|]]; reflexivity.
Qed.

(** C4 as stated fails: [--min-confidence 200] with a path, in the test
    tree, returns a config whose [min_confidence] is 200. *)
Lemma min_confidence_unbounded :
  ~ (forall w ns tomlfile out cfg z,
       run (make_config w ns tomlfile) = (out, Ok cfg) ->
       dict_get "min_confidence" cfg = Some (PInt z) ->
       (0 <= z <= 100)%Z).
Proof.
  intros H.
  computed (run (make_config test_world (vars over_confident_cli) None)) E.
  specialize (H test_world (vars over_confident_cli) None _ _ 200%Z
                E eq_refl).
  lia.
Qed.

Lemma last_given_vars_paths (c : cli) :
  last_given "paths" (vars c) = match arg_list (cli_paths c) with
                                | given v => Some v
                                | missing => None
                                end.
Proof.
  destruct c as [[?|] [?|] [?|] [?|] [|] [?|] [|] [|]]; reflexivity.
Qed.

Lemma last_given_vars_exclude (c : cli) :
  last_given "exclude" (vars c) = match arg_list (cli_exclude c) with
                                  | given v => Some v
                                  | missing => None
                                  end.
Proof.
  destruct c as [[?|] [?|] [?|] [?|] [|] [?|] [|] [|]]; reflexivity.
Qed.

Lemma last_given_vars_min_confidence (c : cli) :
  last_given "min_confidence" (vars c)
  = match arg_int (cli_min_confidence c) with
    | given v => Some v
    | missing => None
    end.
Proof.
  destruct c as [[?|] [?|] [?|] [?|] [|] [?|] [|] [|]]; reflexivity.
Qed.

(** A command line with paths and no exclude patterns, and no TOML file:
    [make_config] returns, with the values of the command line. *)
Lemma make_config_cli_only (w : world) (c : cli) (p : string)
      (ps : list string) :
  cli_paths c = Some (p :: ps) -> cli_exclude c = None ->
  toml_source w None = None ->
  exists out cfg,
    run (make_config w (vars c) None) = (out, Ok cfg)
    /\ forall k, k <> "exclude" ->
         dict_get k cfg
         = match last_given k (vars c) with
           | Some v => Some v
           | None => dict_get k DEFAULTS
           end.
Proof.
  intros Hp He Hs.
  assert (Hm : merged_of w (vars c) None
               = Ok (merge_config [] (cli_args_of (vars c)))).
  { unfold merged_of. rewrite parse_args_vars.
    cbv beta iota delta [bind].
    rewrite load_config_source, Hs. reflexivity. }
  set (merged := merge_config [] (cli_args_of (vars c))) in *.
  assert (Hget : forall k, dict_get k merged
                           = match last_given k (vars c) with
                             | Some v => Some v
                             | None => dict_get k DEFAULTS
                             end).
  { intros k. unfold merged.
    rewrite dict_get_merge by apply cli_args_NoDup.
    now rewrite cli_args_get. }
  assert (Hpaths : dict_get "paths" merged
                   = Some (PList (map PStr (p :: ps)))).
  { rewrite Hget, last_given_vars_paths, Hp. reflexivity. }
  assert (Hexcl : dict_get "exclude" merged = Some (PList [])).
  { rewrite Hget, last_given_vars_exclude, He. reflexivity. }
  rewrite (@make_config_from_merged w (vars c) None merged Hm).
  rewrite (@resolve_exclude_eq w merged _ _ _ Hexcl Hpaths).
  change (truthy (PList [])) with false. cbv iota.
  destruct (find_gitignore_strings w (p :: ps)) as [g Hg]. rewrite Hg.
  assert (Hcheck : forall cfg,
            dict_get "paths" cfg = Some (PList (map PStr (p :: ps))) ->
            (_ <- _check_output_config cfg ;; Ok cfg) = Ok cfg).
  { intros cfg Hc. unfold _check_output_config, dict_index. now rewrite Hc. }
  destruct g as [g|]; unfold checked.
  - eexists. eexists. split.
    + rewrite Hcheck; [reflexivity|].
      rewrite dict_get_set_other; [assumption | discriminate].
    + intros k Hk. rewrite dict_get_set_other by assumption. apply Hget.
  - eexists. eexists. split.
    + rewrite Hcheck; [reflexivity | assumption].
    + intros k _. apply Hget.
Qed.

(** A mapping with a [min_confidence] that is not an [int] fails the check. *)
Lemma check_input_min_confidence (data : dict) (v : pyvalue) :
  In ("min_confidence", v) data -> type_of v <> TInt ->
  exists msg, _check_input_config data = Raise (InputError msg).
Proof.
  intros Hin Hv. apply check_input_wrong_type.
  exists "min_confidence", v, (PInt 0). auto.
Qed.

(** C4, amended. The configuration layer checks the type of
    [min_confidence] only, not its range.  Every integer, in or out of
    0..100, passes the input check, and a run that is given it on the command
    line (with paths, and no TOML file) returns a config that holds it;
    whenever [make_config] returns, the [min_confidence] picked from the
    command line or the TOML table is in the config unchanged.  A
    [min_confidence] that is not of type [int] is rejected: the input check
    raises [InputError] on every mapping that holds it, and [make_config],
    given it on the command line or in the TOML table, raises [InputError]
    and returns no config. *)
Theorem min_confidence_any_int (z : Z) :
  _check_input_config [("min_confidence", PInt z)] = Ok tt
  /\ (forall w c p ps,
        cli_min_confidence c = Some z ->
        cli_paths c = Some (p :: ps) -> cli_exclude c = None ->
        toml_source w None = None ->
        exists out cfg,
          run (make_config w (vars c) None) = (out, Ok cfg)
          /\ dict_get "min_confidence" cfg = Some (PInt z))
  /\ (forall w ns tomlfile toml_config out cfg,
        run (make_config w ns tomlfile) = (out, Ok cfg) ->
        toml_config_of w tomlfile = Ok toml_config ->
        picked "min_confidence" ns toml_config = Some (PInt z) ->
        dict_get "min_confidence" cfg = Some (PInt z))
  /\ (forall v, type_of v <> TInt ->
        _check_input_config [("min_confidence", v)]
        = Raise (InputError "Data type for min_confidence must be 'int'"))
  /\ (forall data v,
        In ("min_confidence", v) data -> type_of v <> TInt ->
        exists msg, _check_input_config data = Raise (InputError msg))
  /\ (forall w ns tomlfile v,
        NoDup (map fst ns) ->
        In ("min_confidence", given v) ns -> type_of v <> TInt ->
        exists msg,
          run (make_config w ns tomlfile) = ([], Raise (InputError msg)))
  /\ (forall w ns tomlfile f data settings v,
        toml_source w tomlfile = Some f ->
        toml_load f = Ok data -> toml_settings data = Ok (PDict settings) ->
        In ("min_confidence", v) settings -> type_of v <> TInt ->
        exists msg,
          run (make_config w ns tomlfile) = ([], Raise (InputError msg))).
Proof.
  split; [reflexivity|]. split; [|split; [|split; [|split; [|split]]]].
  - intros w c p ps Hz Hp He Hs.
    destruct (@make_config_cli_only w c p ps Hp He Hs) as (out & cfg & E & Hk).
    exists out, cfg. split; [assumption|].
    rewrite Hk by discriminate.
    now rewrite last_given_vars_min_confidence, Hz.
  - intros w ns tomlfile toml_config out cfg H Ht Hp.
    now apply (@returned_picked w ns tomlfile toml_config out cfg
                 "min_confidence" (PInt z) H Ht Hp).
  - intros v Hv.
    apply (@check_single_wrong "min_confidence" v (PInt 0) eq_refl Hv).
  - intros data v. apply check_input_min_confidence.
  - intros w ns tomlfile v Hnd Hin Hv.
    assert (Hc : In ("min_confidence", v) (cli_args_of ns)).
    { apply dict_get_In. rewrite cli_args_get.
      now apply last_given_NoDup. }
    destruct (check_input_min_confidence _ _ Hc Hv) as [msg Hmsg].
    exists msg. apply make_config_parse_error.
    unfold _parse_args. now rewrite Hmsg.
  - intros w ns tomlfile f data settings v Hsrc Hl Hs Hin Hv.
    destruct (check_input_min_confidence _ _ Hin Hv) as [msg Hmsg].
    destruct (parse_args_cases ns) as [Hok|[msg' Hraise]].
    + exists msg. apply make_config_load_error with (cli_args_of ns);
        [assumption|].
      rewrite load_config_source, Hsrc. unfold _parse_toml.
      rewrite Hl. simpl. rewrite Hs. simpl. now rewrite Hmsg.
    + exists msg'. now apply make_config_parse_error.
Qed.

(** 200 on the command line and -5 in the TOML table are returned; a string
    in the TOML table, and a bool in a namespace, give no config. *)
Lemma min_confidence_any_int_witness :
  (exists out cfg,
     run (make_config test_world (vars over_confident_cli) None)
     = (out, Ok cfg)
     /\ dict_get "min_confidence" cfg = Some (PInt 200))
  /\ (exists out cfg,
        run (make_config test_world (vars missing_cli)
               (Some (toml_of [("min_confidence", PInt (-5))])))
        = (out, Ok cfg)
        /\ dict_get "min_confidence" cfg = Some (PInt (-5)))
  /\ _check_input_config [("min_confidence", PStr "high")]
     = Raise (InputError "Data type for min_confidence must be 'int'")
  /\ (exists msg,
        run (make_config test_world (vars missing_cli)
               (Some (toml_of [("min_confidence", PStr "high")])))
        = ([], Raise (InputError msg)))
  /\ (exists msg,
        run (make_config test_world
               [("paths", given (PList [PStr "src"]));
                ("min_confidence", given (PBool true))] None)
        = ([], Raise (InputError msg))).
Proof.
  split; [|split; [|split; [|split]]].
  - destruct (min_confidence_any_int 200) as (_ & H2 & _).
    apply (H2 test_world over_confident_cli "src" []); reflexivity.
  - destruct (min_confidence_any_int (-5)) as (_ & _ & H3 & _).
    computed (run (make_config test_world (vars missing_cli)
                     (Some (toml_of [("min_confidence", PInt (-5))])))) E.
    eexists. eexists. split; [exact E|].
    eapply H3; [exact E | reflexivity | reflexivity].
  - destruct (min_confidence_any_int 0) as (_ & _ & _ & H4 & _).
    apply H4. discriminate.
  - destruct (min_confidence_any_int 0) as (_ & _ & _ & _ & _ & _ & H7).
    apply (H7 test_world (vars missing_cli)
              (Some (toml_of [("min_confidence", PStr "high")]))
              (toml_of [("min_confidence", PStr "high")])
              [("tool", PDict [("vulture",
                                PDict [("min_confidence", PStr "high")])])]
              [("min_confidence", PStr "high")] (PStr "high"));
      try reflexivity.
    + left. reflexivity.
    + discriminate.
  - destruct (min_confidence_any_int 0) as (_ & _ & _ & _ & _ & H6 & _).
    apply (H6 test_world _ None (PBool true)).
    + simpl. repeat constructor; simpl; intuition discriminate.
    + right. left. reflexivity.
    + discriminate.
Defined.

(** * Further properties of the module *)

(** ** The input check, item by item *)

Lemma check_item_bad (k : string) (v : pyvalue) :
  ~ well_typed k v -> check_item k v = Raise (InputError (item_message k)).
Proof.
  intros Hbad. unfold check_item, item_message.
  destruct (dict_get k DEFAULTS) as [d|] eqn:E; [|reflexivity].
  destruct (pytype_eqb (type_of v) (type_of d)) eqn:Et; simpl; [|reflexivity].
  exfalso. apply Hbad. exists d. split; auto. now apply pytype_eqb_eq.
Qed.

(** X1. [_check_input_config] passes exactly the mappings in which every
    key is one of [DEFAULTS] and every value has the type of the default of
    its key; the empty mapping passes. *)
Theorem input_check_passes_iff (data : dict) :
  _check_input_config data = Ok tt
  <-> (forall k v, In (k, v) data ->
         exists dflt, dict_get k DEFAULTS = Some dflt
                      /\ type_of v = type_of dflt).
Proof. apply check_input_ok. Qed.

(** X2. The check stops at the first offending item, in the order of the
    mapping: after items that pass, an item with an unknown key or a value
    of the wrong type decides the error, whatever follows it; an unknown key
    is reported as such, whatever its value. *)
Theorem input_check_first_error (good rest : dict) (k : string)
        (v : pyvalue) :
  _check_input_config good = Ok tt ->
  ~ well_typed k v ->
  _check_input_config (good ++ (k, v) :: rest)%list
  = Raise (InputError (item_message k))
  /\ (dict_get k DEFAULTS = None ->
      item_message k = "Unknown configuration key: " ++ k).
Proof.
  intros Hgood Hbad. split.
  - induction good as [|[k0 v0] good IH]; simpl.
    + now rewrite (check_item_bad Hbad).
    + simpl in Hgood.
      destruct (check_item k0 v0) as [[]|]; simpl in *; [|discriminate].
      now apply IH.
  - intros Hn. unfold item_message. now rewrite Hn.
Qed.

(** Two bad items: the first one is reported. *)
Lemma input_check_first_error_witness :
  _check_input_config
    [("verbose", PBool true); ("min_confidence", PStr "high");
     ("unknown_key_1", PInt 1)]
  = Raise (InputError "Data type for min_confidence must be 'int'")
  /\ _check_input_config
       [("verbose", PBool true); ("unknown_key_1", PInt 1);
        ("min_confidence", PStr "high")]
     = Raise (InputError "Unknown configuration key: unknown_key_1").
Proof.
  split.
  - apply (@input_check_first_error [("verbose", PBool true)]
             [("unknown_key_1", PInt 1)] "min_confidence" (PStr "high")).
    + reflexivity.
    + intros (d & Hd & Ht). inversion Hd; subst. discriminate.
  - apply (@input_check_first_error [("verbose", PBool true)]
             [("min_confidence", PStr "high")] "unknown_key_1" (PInt 1)).
    + reflexivity.
    + intros (d & Hd & Ht). discriminate.
Defined.

(** ** The keys and the items of the returned config *)

Lemma In_dict_set (k k' : string) (v v' : pyvalue) (d : dict) :
  In (k', v') (dict_set k v d) -> (k', v') = (k, v) \/ In (k', v') d.
Proof.
  induction d as [|[k0 v0] d IH]; simpl.
  - intros [H|[]]. now left.
  - destruct (String.eqb k k0); simpl; intros [H|H]; auto.
    destruct (IH H); auto.
Qed.

Lemma In_dict_update (k : string) (v : pyvalue) (other d : dict) :
  In (k, v) (dict_update d other) -> In (k, v) d \/ In (k, v) other.
Proof.
  unfold dict_update. revert d.
  induction other as [|[k0 v0] other IH]; intros d; simpl; [auto|].
  intros H. destruct (IH _ H) as [H1|H1]; auto.
  apply In_dict_set in H1 as [H1|H1]; auto.
Qed.

Lemma In_setdefaults (k : string) (v : pyvalue) (defs d : dict) :
  In (k, v)
     (fold_left (fun acc kv => dict_setdefault (fst kv) (snd kv) acc) defs d)
  -> In (k, v) d \/ In (k, v) defs.
Proof.
  revert d. induction defs as [|[k0 v0] defs IH]; intros d; simpl; [auto|].
  intros H. destruct (IH _ H) as [H1|H1]; auto.
  unfold dict_setdefault in H1. simpl in H1.
  destruct (dict_mem k0 d); auto.
  apply In_dict_set in H1 as [H1|H1]; auto.
Qed.

Lemma keys_dict_update (k : string) (other d : dict) :
  In k (keys (dict_update d other)) <-> In k (keys d) \/ In k (keys other).
Proof.
  unfold dict_update. revert d.
  induction other as [|[k0 v0] other IH]; intros d; simpl; [tauto|].
  rewrite IH, keys_dict_set.
  destruct (dict_mem k0 d) eqn:E.
  - apply dict_mem_keys in E. intuition (subst; auto).
  - rewrite in_app_iff. simpl. tauto.
Qed.

Lemma NoDup_dict_update (other d : dict) :
  NoDup (keys d) -> NoDup (keys (dict_update d other)).
Proof.
  unfold dict_update. revert d.
  induction other as [|[k0 v0] other IH]; intros d H; simpl; [assumption|].
  apply IH. now apply NoDup_keys_dict_set.
Qed.

Lemma keys_setdefaults (k : string) (defs d : dict) :
  In k (keys (fold_left
                (fun acc kv => dict_setdefault (fst kv) (snd kv) acc) defs d))
  <-> In k (keys d) \/ In k (keys defs).
Proof.
  revert d. induction defs as [|[k0 v0] defs IH]; intros d; simpl; [tauto|].
  rewrite IH. unfold dict_setdefault. simpl.
  destruct (dict_mem k0 d) eqn:E.
  - apply dict_mem_keys in E. intuition (subst; auto).
  - rewrite keys_dict_set, E, in_app_iff. simpl. tauto.
Qed.

Lemma NoDup_setdefaults (defs d : dict) :
  NoDup (keys d) ->
  NoDup (keys (fold_left
                 (fun acc kv => dict_setdefault (fst kv) (snd kv) acc) defs d)).
Proof.
  revert d. induction defs as [|[k0 v0] defs IH]; intros d H; simpl;
    [assumption|].
  apply IH. unfold dict_setdefault. simpl.
  destruct (dict_mem k0 d); [assumption|]. now apply NoDup_keys_dict_set.
Qed.

Lemma keys_merge (k : string) (toml_config cli_config : dict) :
  In k (keys (merge_config toml_config cli_config))
  <-> In k (keys toml_config) \/ In k (keys cli_config)
      \/ In k (keys DEFAULTS).
Proof.
  unfold merge_config, set_defaults.
  rewrite keys_setdefaults, keys_dict_update. tauto.
Qed.

(** Resolving the exclude patterns keeps the keys and their order. *)
Lemma resolve_exclude_keys (w : world) (config cfg : dict)
      (out out' : list string) :
  resolve_exclude w config out = (out', Ok cfg) -> keys cfg = keys config.
Proof.
  unfold resolve_exclude, io_bind, lift, dict_index, io_ret, print.
  intros H.
  destruct (dict_get "exclude" config) as [exclude|] eqn:He; [|inversion H].
  assert (Hm : dict_mem "exclude" config = true)
    by (unfold dict_mem; now rewrite He).
  destruct (truthy exclude); simpl in H.
  - destruct (py_iter exclude) as [items|]; [|inversion H].
    destruct (map_result (fnmatch_to_regex w) items); inversion H; subst.
    now rewrite keys_dict_set, Hm.
  - destruct (dict_get "paths" config) as [paths|]; [|inversion H].
    destruct (find_gitignore w paths) as [[g|]|]; inversion H; subst.
    + now rewrite keys_dict_set, Hm.
    + reflexivity.
Qed.

Lemma In_keys (k : string) (v : pyvalue) (d : dict) :
  In (k, v) d -> In k (keys d).
Proof. intros H. apply dict_mem_keys. now apply In_dict_mem with v. Qed.

(** X3. The config that [make_config] returns passes the input check again,
    as it passes the output check, and its keys are the keys of [DEFAULTS],
    no other: with a TOML table whose keys are distinct, as those of a
    dict are, the eight keys, each once. *)
Theorem returned_config_rechecks (w : world) (ns : namespace)
        (tomlfile : option toml_file) (toml_config : dict)
        (out : list string) (cfg : dict) :
  run (make_config w ns tomlfile) = (out, Ok cfg) ->
  toml_config_of w tomlfile = Ok toml_config ->
  _check_input_config cfg = Ok tt
  /\ _check_output_config cfg = Ok tt
  /\ (forall k, In k (keys cfg) <-> In k (keys DEFAULTS))
  /\ (NoDup (keys toml_config) ->
      NoDup (keys cfg)
      /\ Permutation (keys cfg) (keys DEFAULTS)
      /\ List.length cfg = 8).
Proof.
  intros H Ht.
  destruct (@make_config_ok w ns tomlfile out cfg H) as (merged & Hm & Hr & Hc).
  destruct (@merged_of_ok w ns tomlfile merged Hm)
    as (name & tc & _ & Hl & Hcc & Hct & Hmerged).
  unfold toml_config_of in Ht. rewrite Hl in Ht. simpl in Ht.
  inversion Ht; subst tc. clear Ht.
  assert (Hitems : forall k v, In (k, v) merged -> well_typed k v).
  { intros k v Hin. rewrite Hmerged in Hin. unfold merge_config, set_defaults in Hin.
    apply In_setdefaults in Hin as [Hin|Hin].
    - apply In_dict_update in Hin as [Hin|Hin].
      + now apply (proj1 (check_input_ok _) Hct).
      + now apply (proj1 (check_input_ok _) Hcc).
    - simpl in Hin.
      repeat (destruct Hin as [Hin|Hin];
              [inversion Hin; subst; eexists; split; reflexivity|]).
      contradiction. }
  assert (Hkeys : keys cfg = keys merged)
    by now apply resolve_exclude_keys with w (toml_report w tomlfile merged) out.
  assert (Hiff : forall k, In k (keys cfg) <-> In k (keys DEFAULTS)).
  { intros k. rewrite Hkeys. split.
    - intros Hin. apply dict_mem_keys in Hin. apply dict_mem_In in Hin as [v Hv].
      destruct (Hitems k v Hv) as (d & Hd & _).
      apply In_keys with d. now apply dict_get_In.
    - intros Hin. rewrite Hmerged. apply keys_merge. auto. }
  split; [|split; [assumption|split; [assumption|]]].
  - apply check_input_ok. intros k v Hin.
    destruct (String.eqb_spec k "exclude") as [->|Hne].
    + destruct (@merged_complete w ns tomlfile merged "exclude" (PList [])
                  Hm eq_refl) as (e & He & Hte).
      destruct (@resolve_exclude_list w merged cfg _ out e Hr He Hte)
        as [l Hl'].
      assert (Hwt : forall x, In ("exclude", x) cfg -> well_typed "exclude" x).
      { clear Hin v. intros x Hx.
        unfold resolve_exclude, io_bind, lift, dict_index, io_ret, print in Hr.
        rewrite He in Hr.
        destruct (truthy e); simpl in Hr.
        - destruct (py_iter e) as [items|]; [|inversion Hr].
          destruct (map_result (fnmatch_to_regex w) items); inversion Hr; subst.
          apply In_dict_set in Hx as [Hx|Hx]; [|now apply Hitems].
          inversion Hx; subst. exists (PList []). split; reflexivity.
        - destruct (dict_get "paths" merged) as [paths|]; [|inversion Hr].
          destruct (find_gitignore w paths) as [[g|]|]; inversion Hr; subst.
          + apply In_dict_set in Hx as [Hx|Hx]; [|now apply Hitems].
            inversion Hx; subst. exists (PList []). split; reflexivity.
          + now apply Hitems. }
      now apply Hwt.
    + assert (Hin' : In (k, v) merged).
      { unfold resolve_exclude, io_bind, lift, dict_index, io_ret, print in Hr.
        destruct (dict_get "exclude" merged) as [e|]; [|inversion Hr].
        destruct (truthy e); simpl in Hr.
        - destruct (py_iter e) as [items|]; [|inversion Hr].
          destruct (map_result (fnmatch_to_regex w) items); inversion Hr; subst.
          apply In_dict_set in Hin as [Hx|Hx]; [|assumption].
          inversion Hx; subst. contradiction.
        - destruct (dict_get "paths" merged) as [paths|]; [|inversion Hr].
          destruct (find_gitignore w paths) as [[g|]|]; inversion Hr; subst.
          + apply In_dict_set in Hin as [Hx|Hx]; [|assumption].
            inversion Hx; subst. contradiction.
          + assumption. }
      now apply Hitems.
  - intros Hnd.
    assert (Hnd' : NoDup (keys cfg)).
    { rewrite Hkeys, Hmerged. unfold merge_config, set_defaults.
      apply NoDup_setdefaults. now apply NoDup_dict_update. }
    assert (Hperm : Permutation (keys cfg) (keys DEFAULTS)).
    { apply NoDup_Permutation; auto.
      simpl. repeat constructor; simpl; intuition discriminate. }
    split; [assumption|]. split; [assumption|].
    apply Permutation_length in Hperm. unfold keys in Hperm.
    rewrite length_map in Hperm. exact Hperm.
Qed.

(** The test [test_config_merging], and a command line alone. *)
Lemma returned_config_rechecks_witness :
  (exists out cfg,
     run (make_config test_world (vars merging_cli) (Some merging_toml))
     = (out, Ok cfg)
     /\ _check_input_config cfg = Ok tt /\ List.length cfg = 8)
  /\ (exists out cfg,
        run (make_config test_world (vars missing_cli) None) = (out, Ok cfg)
        /\ _check_input_config cfg = Ok tt /\ List.length cfg = 8).
Proof.
  split.
  - computed (run (make_config test_world (vars merging_cli)
                     (Some merging_toml))) E.
    destruct (@returned_config_rechecks test_world (vars merging_cli)
                (Some merging_toml) _ _ _ E eq_refl) as (H1 & _ & _ & H4).
    eexists. eexists. split; [exact E|]. split; [exact H1|].
    apply H4. simpl. repeat constructor; simpl; intuition discriminate.
  - computed (run (make_config test_world (vars missing_cli) None)) E.
    destruct (@returned_config_rechecks test_world (vars missing_cli)
                None _ _ _ E eq_refl) as (H1 & _ & _ & H4).
    eexists. eexists. split; [exact E|]. split; [exact H1|].
    apply H4. constructor.
Defined.

(** ** The TOML document *)

(** X4. A TOML file without a [[tool.vulture]] table gives an empty mapping
    of settings, not an error, and [make_config] then merges the command
    line over the defaults only; a file whose table passes the check gives
    exactly that table, nothing added. *)
Theorem toml_without_section (f : toml_file) (data : dict) :
  toml_load f = Ok data ->
  (no_vulture_table data ->
   _parse_toml f = Ok []
   /\ forall w ns merged k,
        merged_of w ns (Some f) = Ok merged ->
        dict_get k merged
        = match last_given k ns with
          | Some v => Some v
          | None => dict_get k DEFAULTS
          end)
  /\ (forall config,
        _parse_toml f = Ok config <->
        toml_settings data = Ok (PDict config)
        /\ _check_input_config config = Ok tt).
Proof.
  intros Hl. split.
  - intros Hno.
    assert (Hp : _parse_toml f = Ok []).
    { unfold _parse_toml, toml_settings, dict_get_or_empty. rewrite Hl. simpl.
      destruct Hno as [Hn|(tool & Ht & Hv)].
      - rewrite Hn. reflexivity.
      - rewrite Ht. simpl. rewrite Hv. reflexivity. }
    split; [assumption|].
    intros w ns merged k Hm.
    destruct (@merged_of_get w ns (Some f) merged k Hm) as (tc & Htc & Hk).
    unfold toml_config_of, load_config in Htc. rewrite Hp in Htc.
    simpl in Htc. inversion Htc; subst tc. exact Hk.
  - intros config. split.
    + intros H. apply parse_toml_ok in H as (data' & Hl' & Hs & Hc).
      rewrite Hl in Hl'. inversion Hl'; subst data'. auto.
    + intros [Hs Hc]. unfold _parse_toml. rewrite Hl. simpl.
      rewrite Hs. simpl. rewrite Hc. reflexivity.
Qed.

(** A document with another table only, and the table of [merging_toml]. *)
Lemma toml_without_section_witness :
  _parse_toml foo_toml = Ok []
  /\ (exists config,
        _parse_toml merging_toml = Ok config
        /\ dict_get "min_confidence" config = Some (PInt 10)
        /\ List.length config = 8).
Proof.
  split.
  - destruct (@toml_without_section foo_toml _ eq_refl) as [H _].
    apply H. right. exists [("foo", PDict [])]. split; reflexivity.
  - destruct (@toml_without_section merging_toml _ eq_refl) as [_ H].
    eexists. split.
    + apply H. split; reflexivity.
    + split; reflexivity.
Defined.

(** X5. When [tool], or [vulture] under it, is not a table, [_parse_toml]
    raises [AttributeError], not [InputError]; an exception of the loader
    goes through as it is.  [make_config] stops with the same exception,
    nothing printed, when the command line passes its check. *)
Theorem toml_malformed_tables (f : toml_file) :
  (forall data, toml_load f = Ok data -> malformed_tables data ->
     _parse_toml f = Raise AttributeError
     /\ forall w ns,
          _parse_args ns = Ok (cli_args_of ns) ->
          run (make_config w ns (Some f)) = ([], Raise AttributeError))
  /\ (forall e, toml_load f = Raise e ->
        _parse_toml f = Raise e
        /\ forall w ns,
             _parse_args ns = Ok (cli_args_of ns) ->
             run (make_config w ns (Some f)) = ([], Raise e)).
Proof.
  assert (Hmk : forall e w ns,
            _parse_toml f = Raise e ->
            _parse_args ns = Ok (cli_args_of ns) ->
            run (make_config w ns (Some f)) = ([], Raise e)).
  { intros e w ns Hp Ha.
    apply (@make_config_load_error w ns (Some f) _ e Ha).
    unfold load_config. now rewrite Hp. }
  split.
  - intros data Hl Hbad.
    assert (Hp : _parse_toml f = Raise AttributeError).
    { unfold _parse_toml, toml_settings, dict_get_or_empty. rewrite Hl. simpl.
      destruct Hbad as [(v & Hv & Hd)|(tool & v & Ht & Hv & Hd)].
      - rewrite Hv. destruct v; try reflexivity; discriminate.
      - rewrite Ht. simpl. rewrite Hv.
        destruct v; try reflexivity; discriminate. }
    split; [assumption|]. intros w ns. now apply Hmk.
  - intros e Hl.
    assert (Hp : _parse_toml f = Raise e).
    { unfold _parse_toml. now rewrite Hl. }
    split; [assumption|]. intros w ns. now apply Hmk.
Qed.

(** [tool = 1], and [vulture = "all"] in the [tool] table. *)
Lemma toml_malformed_tables_witness :
  run (make_config test_world (vars missing_cli) (Some tool_int_toml))
  = ([], Raise AttributeError)
  /\ _parse_toml vulture_str_toml = Raise AttributeError.
Proof.
  split.
  - apply (proj1 (toml_malformed_tables tool_int_toml)
             [("tool", PInt 1)] eq_refl).
    + left. exists (PInt 1). split; reflexivity.
    + reflexivity.
  - apply (proj1 (toml_malformed_tables vulture_str_toml)
             [("tool", PDict [("vulture", PStr "all")])] eq_refl).
    right. exists [("vulture", PStr "all")], (PStr "all").
    repeat split.
Defined.

(** ** What is printed *)

Lemma merged_of_raise (w : world) (ns : namespace)
      (tomlfile : option toml_file) (e : exn) :
  merged_of w ns tomlfile = Raise e ->
  run (make_config w ns tomlfile) = ([], Raise e).
Proof.
  unfold merged_of. intros H.
  destruct (_parse_args ns) as [cli_config|e1] eqn:Ea; simpl in H.
  - destruct (load_config w tomlfile) as [loaded|e2] eqn:El; simpl in H;
      inversion H; subst.
    now apply make_config_load_error with cli_config.
  - inversion H; subst. now apply make_config_parse_error.
Qed.

Lemma resolve_exclude_printed (w : world) (merged : dict)
      (out : list string) (exclude paths : pyvalue) :
  dict_get "exclude" merged = Some exclude ->
  dict_get "paths" merged = Some paths ->
  fst (resolve_exclude w merged out)
  = (out ++ gitignore_warning w merged)%list.
Proof.
  intros He Hp.
  rewrite (@resolve_exclude_eq w merged out exclude paths He Hp).
  unfold gitignore_warning. rewrite He, Hp.
  destruct (truthy exclude).
  - rewrite app_nil_r. destruct (py_iter exclude) as [items|]; [|reflexivity].
    destruct (map_result (fnmatch_to_regex w) items); reflexivity.
  - destruct (find_gitignore w paths) as [[g|]|]; simpl;
      rewrite ?app_nil_r; reflexivity.
Qed.

(** X6. Once [argparse] has returned a namespace, a run of [make_config]
    prints at most two lines, in this order: the TOML file it read, when
    the merged configuration is verbose, and the warning that no
    [.gitignore] was found, when there are no exclude patterns and
    [find_gitignore] finds nothing.  Nothing is printed when the check of
    the command-line mapping or the parsing of the TOML file fails, and the
    same lines are printed whether the output check then passes or not.
    (What [argparse] prints itself, for [--help], [--version] or arguments
    it refuses, before it exits, is before any namespace.) *)
Theorem printed_lines (w : world) (ns : namespace)
        (tomlfile : option toml_file) :
  fst (run (make_config w ns tomlfile)) = printed w ns tomlfile
  /\ List.length (printed w ns tomlfile) <= 2
  /\ (forall line, In line (printed w ns tomlfile) ->
        line = no_gitignore_warning
        \/ exists f, toml_source w tomlfile = Some f
                     /\ line = "Reading configuration from " ++ toml_name f).
Proof.
  unfold printed.
  destruct (merged_of w ns tomlfile) as [merged|e] eqn:Em.
  - destruct (@merged_complete w ns tomlfile merged "exclude" (PList [])
                Em eq_refl) as (exclude & He & _).
    destruct (@merged_complete w ns tomlfile merged "paths" (PList [])
                Em eq_refl) as (paths & Hp & _).
    assert (Hrep : toml_report w tomlfile merged = []
                   \/ exists f, toml_source w tomlfile = Some f
                                /\ toml_report w tomlfile merged
                                   = ["Reading configuration from "
                                      ++ toml_name f]).
    { unfold toml_report. destruct (toml_source w tomlfile) as [f|]; [|auto].
      destruct (truthy (PStr (toml_name f))); [|auto].
      destruct (dict_get "verbose" merged) as [v|]; [|auto].
      destruct (truthy v); [|auto]. right. exists f. auto. }
    assert (Hwarn : gitignore_warning w merged = []
                    \/ gitignore_warning w merged = [no_gitignore_warning]).
    { unfold gitignore_warning. rewrite He, Hp.
      destruct (truthy exclude); [auto|].
      destruct (find_gitignore w paths) as [[g|]|]; auto. }
    split; [|split].
    + rewrite (@make_config_from_merged w ns tomlfile merged Em).
      rewrite <- (@resolve_exclude_printed w merged _ exclude paths He Hp).
      unfold checked.
      destruct (resolve_exclude w merged (toml_report w tomlfile merged))
        as [out [config|e]]; reflexivity.
    + rewrite length_app.
      destruct Hrep as [->|(f & _ & ->)]; destruct Hwarn as [->| ->];
        simpl; lia.
    + intros line Hin. apply in_app_iff in Hin as [Hin|Hin].
      * destruct Hrep as [Hr|(f & Hs & Hr)]; rewrite Hr in Hin.
        -- contradiction.
        -- destruct Hin as [<-|[]]. right. exists f. auto.
      * destruct Hwarn as [Hw|Hw]; rewrite Hw in Hin.
        -- contradiction.
        -- destruct Hin as [<-|[]]. now left.
  - split; [|split].
    + now rewrite (@merged_of_raise w ns tomlfile e Em).
    + simpl. lia.
    + intros line [].
Qed.

(** ** Comma-separated values *)

Lemma string_app_assoc (a b c : string) : (a ++ b) ++ c = a ++ (b ++ c).
Proof. induction a as [|x a IH]; simpl; congruence. Qed.

Lemma string_app_nil_r (a : string) : a ++ EmptyString = a.
Proof. induction a as [|x a IH]; simpl; congruence. Qed.

Lemma split_char_nonempty (sep : ascii) (s piece : string) :
  split_char sep piece s <> [].
Proof.
  revert piece. induction s as [|c s IH]; intros piece; simpl.
  - discriminate.
  - destruct (Ascii.eqb c sep); [discriminate | apply IH].
Qed.

Lemma concat_cons (sep x : string) (xs : list string) :
  xs <> [] -> String.concat sep (x :: xs) = x ++ sep ++ String.concat sep xs.
Proof. destruct xs; [contradiction | reflexivity]. Qed.

Lemma concat_split_char (sep : ascii) (s piece : string) :
  String.concat (String sep EmptyString) (split_char sep piece s)
  = piece ++ s.
Proof.
  revert piece. induction s as [|c s IH]; intros piece.
  - simpl. now rewrite string_app_nil_r.
  - change (split_char sep piece (String c s))
      with (if Ascii.eqb c sep then piece :: split_char sep EmptyString s
            else split_char sep (piece ++ String c EmptyString) s).
    destruct (Ascii.eqb_spec c sep) as [->|Hne].
    + rewrite concat_cons by apply split_char_nonempty.
      rewrite IH. reflexivity.
    + rewrite IH, string_app_assoc. reflexivity.
Qed.

Lemma length_split_char (sep : ascii) (s piece : string) :
  List.length (split_char sep piece s) = S (count_char sep s).
Proof.
  revert piece. induction s as [|c s IH]; intros piece; simpl.
  - reflexivity.
  - destruct (Ascii.eqb c sep); simpl; now rewrite IH.
Qed.

Lemma has_char_app (c : ascii) (a b : string) :
  has_char c (a ++ b) = has_char c a || has_char c b.
Proof.
  induction a as [|x a IH]; simpl; [reflexivity|].
  now rewrite IH, orb_assoc.
Qed.

Lemma split_char_pieces (sep : ascii) (s piece : string) :
  has_char sep piece = false ->
  Forall (fun p => has_char sep p = false) (split_char sep piece s).
Proof.
  revert piece. induction s as [|c s IH]; intros piece Hp; simpl.
  - constructor; auto.
  - destruct (Ascii.eqb c sep) eqn:E.
    + constructor; auto.
    + apply IH. rewrite has_char_app, Hp. simpl. now rewrite E.
Qed.

(** X7. [csv] splits at every comma: joining the pieces with commas gives
    the argument back, there is one piece more than there are commas (so
    never an empty list, not even for the empty string), no piece has a
    comma, and an argument without comma is a single piece. *)
Theorem csv_pieces (exclude : string) :
  String.concat "," (csv exclude) = exclude
  /\ List.length (csv exclude) = S (count_char ","%char exclude)
  /\ csv exclude <> []
  /\ Forall (fun p => has_char ","%char p = false) (csv exclude)
  /\ (has_char ","%char exclude = false -> csv exclude = [exclude]).
Proof.
  unfold csv. split; [|split; [|split; [|split]]].
  - apply (concat_split_char ","%char exclude EmptyString).
  - apply length_split_char.
  - apply split_char_nonempty.
  - now apply split_char_pieces.
  - intros H.
    assert (G : forall s piece, has_char ","%char s = false ->
                  split_char ","%char piece s = [piece ++ s]).
    { clear. induction s as [|c s IH]; intros piece Hs; simpl.
      - now rewrite string_app_nil_r.
      - simpl in Hs. apply orb_false_elim in Hs as [Hc Hs].
        rewrite Hc, IH by assumption. now rewrite string_app_assoc. }
    now apply (G exclude EmptyString).
Qed.

(** The pattern list of the test [test_cli_args]. *)
Lemma csv_pieces_witness : csv "file*.py,dir/" = ["file*.py"; "dir/"]
                           /\ csv "docs" = ["docs"].
Proof.
  split; [reflexivity|].
  apply (proj2 (proj2 (proj2 (proj2 (csv_pieces "docs"))))). reflexivity.
Defined.

(** ** The exclude patterns of the command line *)

Lemma map_result_length {A B : Type} (f : A -> result B) (l : list A)
      (r : list B) :
  map_result f l = Ok r -> List.length r = List.length l.
Proof.
  revert r. induction l as [|x l IH]; simpl; intros r H.
  - inversion H. reflexivity.
  - destruct (f x) as [y|]; simpl in H; [|discriminate].
    destruct (map_result f l) as [ys|]; simpl in H; [|discriminate].
    inversion H; subst. simpl. now rewrite (IH ys eq_refl).
Qed.

Lemma toml_report_no_warning (w : world) (tomlfile : option toml_file)
      (merged : dict) :
  ~ In no_gitignore_warning (toml_report w tomlfile merged).
Proof.
  unfold toml_report.
  destruct (toml_source w tomlfile) as [f|]; [|tauto].
  destruct (truthy (PStr (toml_name f))); [|tauto].
  destruct (dict_get "verbose" merged) as [v|]; [|tauto].
  destruct (truthy v); [|tauto].
  intros [H|[]]. discriminate.
Qed.

(** X8. With [--exclude] on the command line, whatever its argument, the
    [exclude] of the returned config is the translation of the pieces of
    the argument, one regex for each piece, in their order; no
    [.gitignore] is used and the warning about it is not printed. *)
Theorem exclude_argument_used (w : world) (c : cli) (arg : string)
        (tomlfile : option toml_file) (out : list string) (cfg : dict) :
  cli_exclude c = Some (csv arg) ->
  run (make_config w (vars c) tomlfile) = (out, Ok cfg) ->
  exists regexes,
    map_result (fnmatch_to_regex w) (map PStr (csv arg)) = Ok regexes
    /\ dict_get "exclude" cfg = Some (PList regexes)
    /\ List.length regexes = S (count_char ","%char arg)
    /\ ~ In no_gitignore_warning out.
Proof.
  intros Hc H.
  destruct (@make_config_ok w (vars c) tomlfile out cfg H)
    as (merged & Hm & Hr & _).
  destruct (@merged_of_get w (vars c) tomlfile merged "exclude" Hm)
    as (tc & _ & He).
  rewrite last_given_vars_exclude, Hc in He. simpl in He.
  destruct (@merged_complete w (vars c) tomlfile merged "paths" (PList [])
              Hm eq_refl) as (paths & Hp & _).
  rewrite (@resolve_exclude_eq w merged _ _ paths He Hp) in Hr.
  pose proof (length_split_char ","%char arg EmptyString) as Hlen.
  pose proof (split_char_nonempty ","%char arg EmptyString) as Hne.
  fold (csv arg) in Hlen, Hne.
  assert (Ht : truthy (PList (map PStr (csv arg))) = true).
  { simpl. destruct (csv arg); [contradiction | reflexivity]. }
  rewrite Ht in Hr. simpl in Hr.
  destruct (map_result (fnmatch_to_regex w) (map PStr (csv arg)))
    as [regexes|] eqn:Em; inversion Hr; subst.
  exists regexes. split; [reflexivity|]. split; [apply dict_get_set_same|].
  split.
  - rewrite (map_result_length _ _ Em), length_map. exact Hlen.
  - apply toml_report_no_warning.
Qed.

(** [--exclude=docs,] in the tree without [.gitignore]: two patterns, the
    second one empty, and no warning. *)
Lemma exclude_argument_used_witness :
  exists out cfg,
    run (make_config bare_world (vars csv_cli) None) = (out, Ok cfg)
    /\ dict_get "exclude" cfg = Some (PList [PRegex "*docs*"; PRegex "**"])
    /\ ~ In no_gitignore_warning out.
Proof.
  computed (run (make_config bare_world (vars csv_cli) None)) E.
  destruct (@exclude_argument_used bare_world csv_cli "docs," None _ _
              eq_refl E) as (regexes & Hm & He & _ & Hw).
  eexists. eexists. split; [exact E|]. split; [|exact Hw].
  vm_compute in Hm. inversion Hm; subst. exact He.
Defined.

(** ** [find_gitignore] on its own *)

Lemma deepest_common_unique (w : world) (ps : list path) (b b' : path) :
  deepest_common w ps b -> deepest_common w ps b' -> b = b'.
Proof.
  intros [H1 H2] [H1' H2']. apply prefix_antisym; auto.
Qed.

Lemma deepest_common_ext (w : world) (ps ps' : list path) (b : path) :
  (forall p, In p ps <-> In p ps') ->
  deepest_common w ps b -> deepest_common w ps' b.
Proof.
  intros Hs [H1 H2]. split.
  - intros p Hp. apply H1. now apply Hs.
  - intros d Hd. apply H2. intros p Hp. apply Hd. now apply Hs.
Qed.

Lemma common_base_ok (w : world) (ps : list path) (b : path) :
  common_base w ps = Ok b -> deepest_common w ps b.
Proof.
  destruct ps as [|p0 rest]; [discriminate|].
  destruct (common_base_deepest w p0 rest) as (b' & Hb & Hd).
  rewrite Hb. intros H. inversion H; subst. exact Hd.
Qed.

Lemma common_base_exists (w : world) (ps : list path) :
  ps <> [] -> exists b, common_base w ps = Ok b /\ deepest_common w ps b.
Proof.
  destruct ps as [|p0 rest]; [contradiction|]. intros _.
  apply common_base_deepest.
Qed.

(** The search of [find_gitignore], from the common base up. *)
Lemma find_gitignore_strings_eq (w : world) (l : list string) :
  l <> [] ->
  find_gitignore w (PList (map PStr l))
  = (base <- common_base w (map (resolve w) l) ;;
     Ok (first_gitignore w (base :: parents base))).
Proof.
  intros Hl. unfold find_gitignore, resolved_paths.
  destruct l as [|s l]; [contradiction|].
  change (truthy (PList (map PStr (s :: l)))) with true. simpl negb.
  cbv iota. unfold py_iter.
  assert (E : (items <- Ok (map PStr (s :: l)) ;;
               map_result (Path_resolve w) items)
              = Ok (map (resolve w) (s :: l))).
  { simpl bind. apply (map_result_resolve w (s :: l)). }
  rewrite E. reflexivity.
Qed.

Lemma covers_up (w : world) (d b p : path) :
  is_prefix d b -> covers w b p -> covers w d p.
Proof.
  intros Hd Hb. apply prefix_cases in Hd as [->|(a & s & ->)]; [assumption|].
  left. destruct Hb as [(a' & s' & Hp)|[Hp _]]; subst p.
  - exists a, (s ++ a' :: s')%list.
    now rewrite <- app_assoc.
  - now exists a, s.
Qed.

(** X9. [find_gitignore] takes the paths as a set: two lists of paths with
    the same elements, in any order and with any repetition, give the same
    result. *)
Theorem find_gitignore_order_independent (w : world) (l l' : list string) :
  (forall s, In s l <-> In s l') ->
  find_gitignore w (PList (map PStr l))
  = find_gitignore w (PList (map PStr l')).
Proof.
  intros Hs.
  destruct l as [|s l].
  - destruct l' as [|s' l']; [reflexivity|].
    exfalso. apply (proj2 (Hs s')). now left.
  - destruct l' as [|s' l'].
    + exfalso. apply (proj1 (Hs s)). now left.
    + rewrite !find_gitignore_strings_eq by discriminate.
      assert (Hps : forall p, In p (map (resolve w) (s :: l))
                              <-> In p (map (resolve w) (s' :: l'))).
      { intros p. rewrite !in_map_iff. split; intros (x & Hx & Hin);
          exists x; (split; [assumption|]); now apply Hs. }
      destruct (@common_base_exists w (map (resolve w) (s :: l)))
        as (b & Hb & Hd); [discriminate|].
      destruct (@common_base_exists w (map (resolve w) (s' :: l')))
        as (b' & Hb' & Hd'); [discriminate|].
      rewrite Hb, Hb'.
      assert (b = b').
      { apply deepest_common_unique with w (map (resolve w) (s' :: l'));
          [|assumption].
        now apply deepest_common_ext with (map (resolve w) (s :: l)). }
      now subst.
Qed.

(** The two directories of the test tree, in both orders and repeated. *)
Lemma find_gitignore_order_independent_witness :
  find_gitignore test_world (PList (map PStr ["src"; "test"]))
  = find_gitignore test_world (PList (map PStr ["test"; "src"; "test"])).
Proof.
  apply find_gitignore_order_independent.
  intros s. simpl. tauto.
Defined.

Lemma first_gitignore_result (w : world) (l : list string) (b : path) :
  l <> [] -> common_base w (map (resolve w) l) = Ok b ->
  find_gitignore w (PList (map PStr l))
  = Ok (first_gitignore w (b :: parents b)).
Proof.
  intros Hl Hb. rewrite find_gitignore_strings_eq by assumption.
  now rewrite Hb.
Qed.

(** X10. The [.gitignore] that [find_gitignore] returns is a file, in a
    directory that is an ancestor of every given path, or the path itself
    when that is a directory; and it returns [None] exactly when no such
    directory has a file [.gitignore]. *)
Theorem find_gitignore_sound (w : world) (l : list string) :
  l <> [] ->
  (forall g,
     find_gitignore w (PList (map PStr l)) = Ok (Some g) ->
     exists d, g = joinpath d ".gitignore"
               /\ is_file w g = true
               /\ forall s, In s l -> covers w d (resolve w s))
  /\ (find_gitignore w (PList (map PStr l)) = Ok None
      <-> forall d, (forall s, In s l -> covers w d (resolve w s)) ->
                    is_file w (joinpath d ".gitignore") = false).
Proof.
  intros Hl.
  destruct (@common_base_exists w (map (resolve w) l))
    as (b & Hb & Hcov & Hdeep).
  { destruct l; [contradiction | discriminate]. }
  rewrite (@first_gitignore_result w l b Hl Hb).
  pose proof (first_gitignore_closest w b) as Hfirst.
  assert (Hup : forall d, is_prefix d b ->
                  forall s, In s l -> covers w d (resolve w s)).
  { intros d Hd s Hs. apply covers_up with b; [assumption|].
    apply Hcov. now apply in_map. }
  assert (Hdown : forall d, (forall s, In s l -> covers w d (resolve w s)) ->
                    is_prefix d b).
  { intros d Hd. apply Hdeep. intros p Hp.
    apply in_map_iff in Hp as (s & <- & Hs). now apply Hd. }
  destruct (first_gitignore w (b :: parents b)) as [gp|]; split.
  - intros g Hg. inversion Hg; subst g.
    destruct Hfirst as (d & -> & Hpre & Hfile & _).
    exists d. split; [reflexivity|]. split; [assumption|]. now apply Hup.
  - split; [discriminate|]. intros Hnone. exfalso.
    destruct Hfirst as (d & -> & Hpre & Hfile & _).
    rewrite (Hnone d (Hup d Hpre)) in Hfile. discriminate.
  - intros g Hg. discriminate.
  - split; [|reflexivity]. intros _ d Hd. apply Hfirst. now apply Hdown.
Qed.

(** A file of the submodule, and the tree without [.gitignore]. *)
Lemma find_gitignore_sound_witness :
  (exists d, (root_dir ++ ["src"; ".gitignore"])%list = joinpath d ".gitignore"
             /\ forall s, In s ["src/foo.py"] ->
                          covers test_world d (test_resolve s))
  /\ find_gitignore bare_world (PList (map PStr ["src/foo.py"])) = Ok None.
Proof.
  split.
  - destruct (@find_gitignore_sound test_world ["src/foo.py"]) as [H _];
      [discriminate|].
    destruct (H (root_dir ++ ["src"; ".gitignore"])%list eq_refl)
      as (d & Hd & _ & Hc).
    exists d. auto.
  - destruct (@find_gitignore_sound bare_world ["src/foo.py"]) as [_ H];
      [discriminate|].
    apply H. reflexivity.
Defined.

(** X11. With more paths the search starts higher: when [find_gitignore]
    finds a [.gitignore] for a list of paths, it finds one for every
    non-empty part of the list, in the same directory or below it. *)
Theorem find_gitignore_monotone (w : world) (l l' : list string)
        (g' : path) :
  l <> [] -> incl l l' ->
  find_gitignore w (PList (map PStr l')) = Ok (Some g') ->
  exists d d',
    g' = joinpath d' ".gitignore"
    /\ find_gitignore w (PList (map PStr l))
       = Ok (Some (joinpath d ".gitignore"))
    /\ is_prefix d' d.
Proof.
  intros Hl Hincl Hg'.
  assert (Hl' : l' <> []).
  { destruct l as [|s l]; [contradiction|]. intros ->.
    apply (Hincl s). now left. }
  destruct (@common_base_exists w (map (resolve w) l))
    as (b & Hb & Hcov & Hdeep).
  { destruct l; [contradiction | discriminate]. }
  destruct (@common_base_exists w (map (resolve w) l'))
    as (b' & Hb' & Hcov' & Hdeep').
  { destruct l'; [contradiction | discriminate]. }
  rewrite (@first_gitignore_result w l' b' Hl' Hb') in Hg'.
  rewrite (@first_gitignore_result w l b Hl Hb).
  assert (Hbb : is_prefix b' b).
  { apply Hdeep. intros p Hp. apply Hcov'.
    apply in_map_iff in Hp as (s & <- & Hs). apply in_map. now apply Hincl. }
  pose proof (first_gitignore_closest w b') as H'.
  pose proof (first_gitignore_closest w b) as H.
  destruct (first_gitignore w (b' :: parents b')) as [gp'|];
    inversion Hg'; subst gp'.
  destruct H' as (d' & -> & Hpre' & Hfile' & _).
  assert (Hd'b : is_prefix d' b) by now apply prefix_trans with b'.
  destruct (first_gitignore w (b :: parents b)) as [gp|].
  - destruct H as (d & -> & Hpre & Hfile & Hclose).
    exists d, d'. split; [reflexivity|]. split; [reflexivity|].
    destruct (prefix_comparable Hd'b Hpre) as [Hc|Hc]; [assumption|].
    destruct (Nat.le_gt_cases (List.length d') (List.length d)) as [Hle|Hlt].
    + assert (d = d') by now apply prefix_length_eq.
      subst. apply prefix_refl.
    + rewrite (Hclose d' Hd'b Hlt) in Hfile'. discriminate.
  - rewrite (H d' Hd'b) in Hfile'. discriminate.
Qed.

(** The submodule alone, and the submodule with the test directory. *)
Lemma find_gitignore_monotone_witness :
  exists d d',
    (root_dir ++ [".gitignore"])%list = joinpath d' ".gitignore"
    /\ find_gitignore test_world (PList (map PStr ["src"]))
       = Ok (Some (joinpath d ".gitignore"))
    /\ is_prefix d' d.
Proof.
  apply (@find_gitignore_monotone test_world ["src"] ["src"; "test"]).
  - discriminate.
  - intros s [<-|[]]. now left.
  - reflexivity.
Defined.



(** ** Where the search starts *)

Lemma common_base_single_dir (w : world) (p : path) :
  is_dir w p = true -> common_base w [p] = Ok p.
Proof.
  intros Hd.
  destruct (common_base_deepest w p []) as (b & Hb & Hdeep).
  rewrite Hb. f_equal.
  apply deepest_common_unique with w [p]; [assumption|].
  split.
  - intros q [<-|[]]. right. auto.
  - intros d H. apply covers_prefix with w. apply H. now left.
Qed.

Lemma common_base_single_file (w : world) (q : path) (a : string) :
  is_dir w (q ++ [a])%list = false -> common_base w [(q ++ [a])%list] = Ok q.
Proof.
  intros Hd.
  destruct (common_base_deepest w (q ++ [a])%list []) as (b & Hb & Hdeep).
  assert (E : b = q); [|subst b; exact Hb].
  apply deepest_common_unique with w [(q ++ [a])%list]; [assumption|].
  split.
  - intros p [<-|[]]. left. exists a, []. reflexivity.
  - intros d H. specialize (H _ (or_introl eq_refl)).
    destruct H as [Ha|[_ Hdir]]; [|congruence].
    pose proof (ancestor_length Ha) as Hlen.
    apply ancestor_prefix in Ha. apply prefix_snoc in Ha as [->|Ha];
      [lia | assumption].
Qed.

(** X13. For a single path, the search starts in the path itself when it is
    a directory, and in its parent when it is not: a [.gitignore] in the
    directory given is the one returned, and a path that is not a directory
    is never looked into.  Without paths, the search starts in the current
    directory. *)
Theorem find_gitignore_start (w : world) (s : string) :
  s <> EmptyString ->
  (is_dir w (resolve w s) = true ->
   find_gitignore w (PStr s)
   = Ok (first_gitignore w (resolve w s :: parents (resolve w s)))
   /\ (is_file w (joinpath (resolve w s) ".gitignore") = true ->
       find_gitignore w (PStr s)
       = Ok (Some (joinpath (resolve w s) ".gitignore"))))
  /\ (is_dir w (resolve w s) = false ->
      find_gitignore w (PStr s)
      = Ok (first_gitignore w (parents (resolve w s))))
  /\ (is_dir w (cwd w) = true ->
      find_gitignore w (PList [])
      = Ok (first_gitignore w (cwd w :: parents (cwd w)))).
Proof.
  intros Hs.
  assert (Ht : negb (truthy (PStr s)) = false).
  { simpl. destruct (String.eqb_spec s EmptyString); [contradiction|].
    reflexivity. }
  assert (Hf : find_gitignore w (PStr s)
               = (base <- common_base w [resolve w s] ;;
                  Ok (first_gitignore w (base :: parents base)))).
  { unfold find_gitignore, resolved_paths. rewrite Ht. reflexivity. }
  split; [|split].
  - intros Hd. rewrite Hf, (common_base_single_dir w _ Hd). simpl bind.
    split; [reflexivity|].
    intros Hfile. simpl. now rewrite Hfile.
  - intros Hd. rewrite Hf.
    assert (Hne : resolve w s <> [])
      by (intros E; rewrite E in Hd; discriminate).
    destruct (exists_last Hne) as (q & a & E). rewrite E in *.
    pose proof (common_base_single_file w q a Hd) as Hb.
    unfold path in *. rewrite Hb. simpl bind.
    now rewrite parents_snoc.
  - intros Hd. unfold find_gitignore, resolved_paths. simpl negb. cbv iota.
    simpl bind at 1. now rewrite (common_base_single_dir w _ Hd).
Qed.

(** The submodule directory, and a file in it. *)
Lemma find_gitignore_start_witness :
  find_gitignore test_world (PStr "src")
  = Ok (Some (joinpath (test_resolve "src") ".gitignore"))
  /\ find_gitignore test_world (PStr "src/foo.py")
     = Ok (first_gitignore test_world (parents (test_resolve "src/foo.py"))).
Proof.
  split.
  - destruct (@find_gitignore_start test_world "src") as [H _];
      [discriminate|].
    destruct (H eq_refl) as [_ H']. apply H'. reflexivity.
  - destruct (@find_gitignore_start test_world "src/foo.py") as (_ & H & _);
      [discriminate|].
    apply H. reflexivity.
Defined.


(** ** The command line alone *)




(** ** The mapping of the command line *)

Lemma last_given_Some_In (k : string) (v : pyvalue) (ns : namespace) :
  last_given k ns = Some v -> In (k, given v) ns.
Proof.
  induction ns as [|[k' a] ns IH]; simpl; [discriminate|].
  destruct (last_given k ns) as [v'|].
  - intros H. inversion H; subst. right. now apply IH.
  - destruct a as [|v0]; [discriminate|].
    destruct (String.eqb_spec k k') as [->|Hne]; [|discriminate].
    intros H. inversion H; subst. now left.
Qed.

(** X15. On every namespace that the parser can build, [_parse_args] passes
    its check and returns the options that were given, with their values, and
    no others: an option left at the sentinel is not a key of the result,
    and without any option the result is empty. *)
Theorem parse_args_given (c : cli) :
  exists cli_args,
    _parse_args (vars c) = Ok cli_args
    /\ (forall k v, dict_get k cli_args = Some v <-> In (k, given v) (vars c))
    /\ (forall k, In (k, missing) (vars c) -> dict_get k cli_args = None)
    /\ NoDup (keys cli_args)
    /\ (c = no_args -> cli_args = []).
Proof.
  exists (cli_args_of (vars c)).
  split; [apply parse_args_vars|]. split; [|split; [|split]].
  - intros k v. rewrite cli_args_get. split.
    + apply last_given_Some_In.
    + apply last_given_NoDup. apply vars_NoDup.
  - intros k Hin. rewrite cli_args_get. apply last_given_missing.
    intros a Ha.
    destruct a as [|v]; [reflexivity|]. exfalso.
    pose proof (vars_NoDup c) as Hnd.
    assert (Hg : last_given k (vars c) = Some v)
      by now apply last_given_NoDup.
    clear Ha. revert Hin Hg Hnd. generalize (vars c). intros ns.
    induction ns as [|[k' a] ns IH]; simpl; [tauto|].
    intros [Hin|Hin] Hg Hnd; inversion Hnd as [|? ? Hnin Hnd']; subst.
    * inversion Hin; subst.
      destruct (last_given k ns) as [v'|] eqn:E; [|discriminate].
      apply last_given_Some_In in E. apply Hnin.
      change k with (fst (k, given v')). now apply in_map.
    * destruct (last_given k ns) as [v'|] eqn:E.
      -- now apply IH.
      -- destruct a as [|v0]; [discriminate|].
         destruct (String.eqb_spec k k') as [->|Hne]; [|discriminate].
         apply Hnin. change k' with (fst (k', missing)). now apply in_map.
  - apply cli_args_NoDup.
  - intros ->. reflexivity.
Qed.

(** ** The regexes of a .gitignore *)

Lemma regex_value_inj (a b : option string) :
  regex_value a = regex_value b -> a = b.
Proof.
  destruct a, b; simpl; intros H; try discriminate; [|reflexivity].
  inversion H. reflexivity.
Qed.

Lemma dedup_length (l : list (option string)) :
  List.length (dedup l) <= List.length l.
Proof.
  induction l as [|x l IH]; simpl; [lia|].
  destruct (existsb (regex_eqb x) l); simpl; lia.
Qed.

Lemma dedup_Permutation (l : list (option string)) :
  NoDup l -> Permutation (dedup l) l.
Proof.
  intros H. apply NoDup_Permutation; auto using NoDup_dedup.
  intros x. apply In_dedup.
Qed.

(** X16. [_parse_gitignore_excludes] returns every regex of the patterns of
    the file once, in an order that is not fixed: the result has no
    duplicates, holds the same regexes as the patterns, is not longer than
    their list, and is a permutation of that list when the regexes are
    distinct; a file without patterns gives an empty list. *)
Theorem gitignore_excludes_distinct (w : world) (gitignore_path : path) :
  NoDup (_parse_gitignore_excludes w gitignore_path)
  /\ (forall r, In (regex_value r) (_parse_gitignore_excludes w gitignore_path)
                <-> In r (gitwildmatch w gitignore_path))
  /\ List.length (_parse_gitignore_excludes w gitignore_path)
     <= List.length (gitwildmatch w gitignore_path)
  /\ (NoDup (gitwildmatch w gitignore_path) ->
      Permutation (_parse_gitignore_excludes w gitignore_path)
                  (map regex_value (gitwildmatch w gitignore_path)))
  /\ (gitwildmatch w gitignore_path = [] ->
      _parse_gitignore_excludes w gitignore_path = []).
Proof.
  unfold _parse_gitignore_excludes.
  split; [|split; [|split; [|split]]].
  - apply Finite.Injective_map_NoDup.
    + intros a b. apply regex_value_inj.
    + apply NoDup_dedup.
  - intros r. rewrite <- In_dedup. split.
    + intros H. apply in_map_iff in H as (x & Hx & Hin).
      apply regex_value_inj in Hx. now subst.
    + apply in_map.
  - rewrite length_map. apply dedup_length.
  - intros H. apply Permutation_map. now apply dedup_Permutation.
  - intros ->. reflexivity.
Qed.

(** The [.gitignore] at the root of the test tree, four lines, one of them
    without pattern, one repeated: the regex of a pattern is in the
    result; and a file without patterns. *)
Lemma gitignore_excludes_distinct_witness :
  In (PRegex "build")
     (_parse_gitignore_excludes test_world (root_dir ++ [".gitignore"])%list)
  /\ _parse_gitignore_excludes bare_world (root_dir ++ [".gitignore"])%list
     = [].
Proof.
  split.
  - apply (proj1 (proj2 (gitignore_excludes_distinct test_world
                           (root_dir ++ [".gitignore"])%list))
             (Some "build")).
    simpl. tauto.
  - apply (proj2 (proj2 (proj2 (proj2
             (gitignore_excludes_distinct bare_world
                (root_dir ++ [".gitignore"])%list))))).
    reflexivity.
Defined.

(** ** The tests of the module, run on the model *)

Example test_invalid_config_options_output :
  is_input_error (_check_input_config [("unknown_key_1", PInt 1)]) = true.
Proof. reflexivity. Qed.

(** For every option, each of the empty values of another type is
    rejected. *)
Example test_incompatible_option_type :
  forallb
    (fun kv =>
       forallb
         (fun v =>
            pytype_eqb (type_of v) (type_of (snd kv))
            || is_input_error (_check_input_config [(fst kv, v)]))
         empty_values)
    DEFAULTS = true.
Proof. reflexivity. Qed.

Example test_missing_paths :
  snd (run (make_config test_world (vars no_args) None))
  = Raise (InputError "Please pass at least one file or directory").
Proof. reflexivity. Qed.

Example test_config_merging_toml_paths_only :
  match
    snd (run (make_config test_world
                (vars {| cli_paths := None; cli_exclude := Some ["test_*.py"];
                         cli_ignore_decorators := None;
                         cli_ignore_names := None;
                         cli_make_whitelist := false;
                         cli_min_confidence := None;
                         cli_sort_by_size := false; cli_verbose := false |})
                (Some (toml_of
                         [("paths", PList [PStr "path1"; PStr "path2"])]))))
  with
  | Ok cfg =>
      dict_get "paths" cfg = Some (PList [PStr "path1"; PStr "path2"])
      /\ dict_get "exclude" cfg = Some (PList [PRegex "test_*.py"])
  | Raise _ => False
  end.
Proof. vm_compute. split; reflexivity. Qed.

Example test_find_gitignore_root_no_paths :
  find_gitignore test_world PNone = Ok (Some ["tmp"; "root"; ".gitignore"]).
Proof. reflexivity. Qed.

Example test_find_gitignore_root_path_from_list :
  find_gitignore test_world (PList [PStr "/tmp/root"])
  = Ok (Some ["tmp"; "root"; ".gitignore"]).
Proof. reflexivity. Qed.

Example test_find_gitignore_from_str_and_path :
  find_gitignore test_world (PStr "/tmp/root")
  = Ok (Some ["tmp"; "root"; ".gitignore"]).
Proof. reflexivity. Qed.

Example test_find_gitignore_common_parent :
  find_gitignore test_world (PList [PStr "src"; PStr "test"])
  = Ok (Some ["tmp"; "root"; ".gitignore"]).
Proof. reflexivity. Qed.

Example test_find_gitignore_in_a_different_repo_root :
  find_gitignore test_world (PList [PStr "src"])
  = Ok (Some ["tmp"; "root"; "src"; ".gitignore"])
  /\ find_gitignore test_world (PList [PStr "src/foo.py"])
     = Ok (Some ["tmp"; "root"; "src"; ".gitignore"]).
Proof. split; reflexivity. Qed.
